(** * Streaming example parser: [InputParser<T>]

    A shallow embedding of [src/shogun/io/streaming/InputParser.h].

    The class is a monitor shared by two threads: the parse thread, which
    runs [main_parse_loop], and the caller of the public methods.  Each
    method body is a program in a small state monad over the object's
    fields; the two blocking procedures ([main_parse_loop] and
    [get_next_example]) are cut at their suspension points into program
    counters, and the interleavings of the two threads are the runs of a
    labelled transition function [step].

    Machine data: [int32_t] is [Z] (a signed overflow of [++] has no defined
    behaviour and is the outcome [Undefined]); [float64_t] is the kernel's
    binary64 [float]; a [T*] is [option (list T)], [None] being [NULL]; an
    [Example<T>*] into the ring is the index of its slot. *)

From Stdlib Require Import ZArith List Bool Lia PrimFloat.
From stdpp Require Import base list.
Import ListNotations.
Local Open Scope Z_scope.

(** ** Constants and enumerations *)

Definition PARSER_DEFAULT_BUFFSIZE : Z := 100.

Definition INT32_MAX : Z := 2147483647.

Inductive E_EXAMPLE_TYPE : Type :=
| E_LABELLED
| E_UNLABELLED.

(** The two threads that touch a parser object. *)
Inductive thread : Type :=
| ParseThread
| Caller.

Definition thread_eqb (a b : thread) : bool :=
  match a, b with
  | ParseThread, ParseThread | Caller, Caller => true
  | _, _ => false
  end.

(** Effects that leave no mark on the fields are recorded, newest first, in
    a ghost [trace]. *)
Inductive event : Type :=
| EvNotify                 (* examples_state_changed.notify_one() *)
| EvSpawn                  (* std::thread(&parse_loop_entry_point, this) *)
| EvJoin                   (* parse_thread.join() returned *)
| EvError                  (* error(...) raised to the caller *)
| EvSourceRead (len : Z)   (* the source's read operation returned [len] *)
| EvGetFree (i : nat)      (* ring: get_free_example returned slot i *)
| EvCopy (i : nat)         (* ring: copy_example on slot i *)
| EvGetUnused (i : nat)    (* ring: get_unused_example returned slot i *)
| EvFinalize (i : nat).    (* ring: finalize_example released slot i *)

Definition is_copy (e : event) : bool :=
  match e with EvCopy _ => true | _ => false end.

Definition is_nonnegative_read (e : event) : bool :=
  match e with EvSourceRead len => 0 <=? len | _ => false end.

(** A read that produced an example: a record of length 0 or less is the
    end of the stream, not an example. *)
Definition is_example_read (e : event) : bool :=
  match e with EvSourceRead len => 0 <? len | _ => false end.

(** What the execution of a piece of code comes to: a result, a wait that
    the current state does not release, or no defined behaviour. *)
Inductive outcome (A : Type) : Type :=
| Ok (a : A)
| Blocked
| Undefined.

Arguments Ok {A} a.
Arguments Blocked {A}.
Arguments Undefined {A}.

Section Parser.

Context {T : Type} {StreamingFile : Type}.

(** ** Examples and the ring *)

Definition vector : Type := option (list T).

Record Example : Type := mkExample {
  fv : vector;
  length : Z;
  label : float
}.

Inductive slot_state : Type :=
| EMPTY
| WRITING
| READY
| READING.

(** Modelled from the spec: [ParseBuffer<T>] (ParseBuffer.h is not among the
    sources).  A fixed-capacity circular array of slots with two monotonic
    cursors, used modulo the capacity. *)
Record ParseBuffer : Type := mkParseBuffer {
  slots : list (Example * slot_state);
  write_idx : nat;
  read_idx : nat;
  free_vectors_on_destruct : bool
}.

Definition capacity (rb : ParseBuffer) : nat := List.length (slots rb).

Definition empty_slot : Example * slot_state :=
  (mkExample None 0 0%float, EMPTY).

(** Modelled from the spec: the ring's constructor, "allocate [capacity]
    slots, all EMPTY, cursors at 0". *)
Definition ParseBuffer_new (size : Z) : ParseBuffer :=
  mkParseBuffer (replicate (Z.to_nat size) empty_slot) 0 0 false.

(** Modelled from the spec: [ParseBuffer::init_vector], "initialize ring slot
    storage"; the spec gives it no effect on slot states or cursors. *)
Definition init_vector (rb : ParseBuffer) : ParseBuffer := rb.

(** Modelled from the spec: [ParseBuffer::set_free_vectors_on_destruct]. *)
Definition ring_set_free_vectors_on_destruct (destroy : bool) (rb : ParseBuffer)
  : ParseBuffer :=
  mkParseBuffer (slots rb) (write_idx rb) (read_idx rb) destroy.

(** Modelled from the spec: [ParseBuffer::get_free_example], "return a handle
    to the slot at write_idx; waits if that slot is not EMPTY; transitions it
    to WRITING". *)
Definition get_free_example (rb : ParseBuffer) : outcome (nat * ParseBuffer) :=
  let i := (write_idx rb mod capacity rb)%nat in
  match slots rb !! i with
  | Some (e, EMPTY) =>
      Ok (i, mkParseBuffer (<[i := (e, WRITING)]> (slots rb)) (write_idx rb)
                (read_idx rb) (free_vectors_on_destruct rb))
  | Some _ => Blocked
  | None => Undefined
  end.

(** Modelled from the spec: [ParseBuffer::copy_example], "atomically stamp the
    slot as READY and advance write_idx". *)
Definition copy_example (ex : nat) (rb : ParseBuffer) : outcome ParseBuffer :=
  match slots rb !! ex with
  | Some (e, _) =>
      Ok (mkParseBuffer (<[ex := (e, READY)]> (slots rb)) (S (write_idx rb))
            (read_idx rb) (free_vectors_on_destruct rb))
  | None => Undefined
  end.

(** Modelled from the spec: [ParseBuffer::get_unused_example], "return a
    handle to the slot at read_idx; waits if that slot is not READY;
    transitions it to READING". *)
Definition get_unused_example (rb : ParseBuffer) : outcome (nat * ParseBuffer) :=
  let i := (read_idx rb mod capacity rb)%nat in
  match slots rb !! i with
  | Some (e, READY) =>
      Ok (i, mkParseBuffer (<[i := (e, READING)]> (slots rb)) (write_idx rb)
                (read_idx rb) (free_vectors_on_destruct rb))
  | Some _ => Blocked
  | None => Undefined
  end.

(** Modelled from the spec: [ParseBuffer::finalize_example], "transition the
    current reading slot to EMPTY, optionally release its feature vector, and
    advance read_idx"; without a slot in READING the call is outside the
    contract. *)
Definition ring_finalize_example (free_vector : bool) (rb : ParseBuffer)
  : outcome (nat * ParseBuffer) :=
  let i := (read_idx rb mod capacity rb)%nat in
  match slots rb !! i with
  | Some (e, READING) =>
      let e' := if free_vector then mkExample None (length e) (label e) else e in
      Ok (i, mkParseBuffer (<[i := (e', EMPTY)]> (slots rb)) (write_idx rb)
                (S (read_idx rb)) (free_vectors_on_destruct rb))
  | _ => Undefined
  end.

(** Writing through an [Example<T>*]: the payload of slot [ex]. *)
Definition store_example (ex : nat) (e : Example) (rb : ParseBuffer)
  : outcome ParseBuffer :=
  match slots rb !! ex with
  | Some (_, st) =>
      Ok (mkParseBuffer (<[ex := (e, st)]> (slots rb)) (write_idx rb)
            (read_idx rb) (free_vectors_on_destruct rb))
  | None => Undefined
  end.

Definition load_example (ex : nat) (rb : ParseBuffer) : outcome Example :=
  match slots rb !! ex with
  | Some (e, _) => Ok e
  | None => Undefined
  end.

(** ** The parser object *)

(** The type of the pointers to member functions of the source that
    [set_read_vector] and [set_read_vector_and_label] take: the function
    reads and writes its reference arguments and may advance the source. *)
Definition read_vector_fn : Type :=
  StreamingFile -> vector -> Z -> StreamingFile * (vector * Z).

Definition read_vector_and_label_fn : Type :=
  StreamingFile -> vector -> Z -> float -> StreamingFile * (vector * Z * float).

(** The data members of [InputParser<T>], in the order of the class, with
    [parse_thread] reduced to [joinable()], the mutex to its owner, and the
    ghost [trace]. *)
Record InputParser : Type := mkInputParser {
  parsing_done : bool;
  reading_done : bool;
  example_type : E_EXAMPLE_TYPE;
  read_vector : option read_vector_fn;
  read_vector_and_label : option read_vector_and_label_fn;
  input_source : option StreamingFile;
  parse_thread : bool;
  examples_ring : option ParseBuffer;
  number_of_vectors_parsed : Z;
  number_of_vectors_read : Z;
  current_example : option nat;
  current_feature_vector : vector;
  current_label : float;
  current_len : Z;
  free_after_release : bool;
  ring_size : Z;
  examples_state_lock : option thread;
  keep_running : bool;
  trace : list event
}.

(** Field updates. *)
Definition upd_parsing_done (v : bool) (p : InputParser) : InputParser :=
  {| parsing_done := v; reading_done := reading_done p;
     example_type := example_type p; read_vector := read_vector p;
     read_vector_and_label := read_vector_and_label p;
     input_source := input_source p; parse_thread := parse_thread p;
     examples_ring := examples_ring p;
     number_of_vectors_parsed := number_of_vectors_parsed p;
     number_of_vectors_read := number_of_vectors_read p;
     current_example := current_example p;
     current_feature_vector := current_feature_vector p;
     current_label := current_label p; current_len := current_len p;
     free_after_release := free_after_release p; ring_size := ring_size p;
     examples_state_lock := examples_state_lock p;
     keep_running := keep_running p; trace := trace p |}.

Definition upd_reading_done (v : bool) (p : InputParser) : InputParser :=
  {| parsing_done := parsing_done p; reading_done := v;
     example_type := example_type p; read_vector := read_vector p;
     read_vector_and_label := read_vector_and_label p;
     input_source := input_source p; parse_thread := parse_thread p;
     examples_ring := examples_ring p;
     number_of_vectors_parsed := number_of_vectors_parsed p;
     number_of_vectors_read := number_of_vectors_read p;
     current_example := current_example p;
     current_feature_vector := current_feature_vector p;
     current_label := current_label p; current_len := current_len p;
     free_after_release := free_after_release p; ring_size := ring_size p;
     examples_state_lock := examples_state_lock p;
     keep_running := keep_running p; trace := trace p |}.

Definition upd_example_type (v : E_EXAMPLE_TYPE) (p : InputParser) : InputParser :=
  {| parsing_done := parsing_done p; reading_done := reading_done p;
     example_type := v; read_vector := read_vector p;
     read_vector_and_label := read_vector_and_label p;
     input_source := input_source p; parse_thread := parse_thread p;
     examples_ring := examples_ring p;
     number_of_vectors_parsed := number_of_vectors_parsed p;
     number_of_vectors_read := number_of_vectors_read p;
     current_example := current_example p;
     current_feature_vector := current_feature_vector p;
     current_label := current_label p; current_len := current_len p;
     free_after_release := free_after_release p; ring_size := ring_size p;
     examples_state_lock := examples_state_lock p;
     keep_running := keep_running p; trace := trace p |}.

Definition upd_read_vector (v : option read_vector_fn) (p : InputParser) : InputParser :=
  {| parsing_done := parsing_done p; reading_done := reading_done p;
     example_type := example_type p; read_vector := v;
     read_vector_and_label := read_vector_and_label p;
     input_source := input_source p; parse_thread := parse_thread p;
     examples_ring := examples_ring p;
     number_of_vectors_parsed := number_of_vectors_parsed p;
     number_of_vectors_read := number_of_vectors_read p;
     current_example := current_example p;
     current_feature_vector := current_feature_vector p;
     current_label := current_label p; current_len := current_len p;
     free_after_release := free_after_release p; ring_size := ring_size p;
     examples_state_lock := examples_state_lock p;
     keep_running := keep_running p; trace := trace p |}.

Definition upd_read_vector_and_label (v : option read_vector_and_label_fn) (p : InputParser) : InputParser :=
  {| parsing_done := parsing_done p; reading_done := reading_done p;
     example_type := example_type p; read_vector := read_vector p;
     read_vector_and_label := v; input_source := input_source p;
     parse_thread := parse_thread p; examples_ring := examples_ring p;
     number_of_vectors_parsed := number_of_vectors_parsed p;
     number_of_vectors_read := number_of_vectors_read p;
     current_example := current_example p;
     current_feature_vector := current_feature_vector p;
     current_label := current_label p; current_len := current_len p;
     free_after_release := free_after_release p; ring_size := ring_size p;
     examples_state_lock := examples_state_lock p;
     keep_running := keep_running p; trace := trace p |}.

Definition upd_input_source (v : option StreamingFile) (p : InputParser) : InputParser :=
  {| parsing_done := parsing_done p; reading_done := reading_done p;
     example_type := example_type p; read_vector := read_vector p;
     read_vector_and_label := read_vector_and_label p; input_source := v;
     parse_thread := parse_thread p; examples_ring := examples_ring p;
     number_of_vectors_parsed := number_of_vectors_parsed p;
     number_of_vectors_read := number_of_vectors_read p;
     current_example := current_example p;
     current_feature_vector := current_feature_vector p;
     current_label := current_label p; current_len := current_len p;
     free_after_release := free_after_release p; ring_size := ring_size p;
     examples_state_lock := examples_state_lock p;
     keep_running := keep_running p; trace := trace p |}.

Definition upd_parse_thread (v : bool) (p : InputParser) : InputParser :=
  {| parsing_done := parsing_done p; reading_done := reading_done p;
     example_type := example_type p; read_vector := read_vector p;
     read_vector_and_label := read_vector_and_label p;
     input_source := input_source p; parse_thread := v;
     examples_ring := examples_ring p;
     number_of_vectors_parsed := number_of_vectors_parsed p;
     number_of_vectors_read := number_of_vectors_read p;
     current_example := current_example p;
     current_feature_vector := current_feature_vector p;
     current_label := current_label p; current_len := current_len p;
     free_after_release := free_after_release p; ring_size := ring_size p;
     examples_state_lock := examples_state_lock p;
     keep_running := keep_running p; trace := trace p |}.

Definition upd_examples_ring (v : option ParseBuffer) (p : InputParser) : InputParser :=
  {| parsing_done := parsing_done p; reading_done := reading_done p;
     example_type := example_type p; read_vector := read_vector p;
     read_vector_and_label := read_vector_and_label p;
     input_source := input_source p; parse_thread := parse_thread p;
     examples_ring := v;
     number_of_vectors_parsed := number_of_vectors_parsed p;
     number_of_vectors_read := number_of_vectors_read p;
     current_example := current_example p;
     current_feature_vector := current_feature_vector p;
     current_label := current_label p; current_len := current_len p;
     free_after_release := free_after_release p; ring_size := ring_size p;
     examples_state_lock := examples_state_lock p;
     keep_running := keep_running p; trace := trace p |}.

Definition upd_number_of_vectors_parsed (v : Z) (p : InputParser) : InputParser :=
  {| parsing_done := parsing_done p; reading_done := reading_done p;
     example_type := example_type p; read_vector := read_vector p;
     read_vector_and_label := read_vector_and_label p;
     input_source := input_source p; parse_thread := parse_thread p;
     examples_ring := examples_ring p; number_of_vectors_parsed := v;
     number_of_vectors_read := number_of_vectors_read p;
     current_example := current_example p;
     current_feature_vector := current_feature_vector p;
     current_label := current_label p; current_len := current_len p;
     free_after_release := free_after_release p; ring_size := ring_size p;
     examples_state_lock := examples_state_lock p;
     keep_running := keep_running p; trace := trace p |}.

Definition upd_number_of_vectors_read (v : Z) (p : InputParser) : InputParser :=
  {| parsing_done := parsing_done p; reading_done := reading_done p;
     example_type := example_type p; read_vector := read_vector p;
     read_vector_and_label := read_vector_and_label p;
     input_source := input_source p; parse_thread := parse_thread p;
     examples_ring := examples_ring p;
     number_of_vectors_parsed := number_of_vectors_parsed p;
     number_of_vectors_read := v; current_example := current_example p;
     current_feature_vector := current_feature_vector p;
     current_label := current_label p; current_len := current_len p;
     free_after_release := free_after_release p; ring_size := ring_size p;
     examples_state_lock := examples_state_lock p;
     keep_running := keep_running p; trace := trace p |}.

Definition upd_current_example (v : option nat) (p : InputParser) : InputParser :=
  {| parsing_done := parsing_done p; reading_done := reading_done p;
     example_type := example_type p; read_vector := read_vector p;
     read_vector_and_label := read_vector_and_label p;
     input_source := input_source p; parse_thread := parse_thread p;
     examples_ring := examples_ring p;
     number_of_vectors_parsed := number_of_vectors_parsed p;
     number_of_vectors_read := number_of_vectors_read p;
     current_example := v;
     current_feature_vector := current_feature_vector p;
     current_label := current_label p; current_len := current_len p;
     free_after_release := free_after_release p; ring_size := ring_size p;
     examples_state_lock := examples_state_lock p;
     keep_running := keep_running p; trace := trace p |}.

Definition upd_current_feature_vector (v : vector) (p : InputParser) : InputParser :=
  {| parsing_done := parsing_done p; reading_done := reading_done p;
     example_type := example_type p; read_vector := read_vector p;
     read_vector_and_label := read_vector_and_label p;
     input_source := input_source p; parse_thread := parse_thread p;
     examples_ring := examples_ring p;
     number_of_vectors_parsed := number_of_vectors_parsed p;
     number_of_vectors_read := number_of_vectors_read p;
     current_example := current_example p; current_feature_vector := v;
     current_label := current_label p; current_len := current_len p;
     free_after_release := free_after_release p; ring_size := ring_size p;
     examples_state_lock := examples_state_lock p;
     keep_running := keep_running p; trace := trace p |}.

Definition upd_current_label (v : float) (p : InputParser) : InputParser :=
  {| parsing_done := parsing_done p; reading_done := reading_done p;
     example_type := example_type p; read_vector := read_vector p;
     read_vector_and_label := read_vector_and_label p;
     input_source := input_source p; parse_thread := parse_thread p;
     examples_ring := examples_ring p;
     number_of_vectors_parsed := number_of_vectors_parsed p;
     number_of_vectors_read := number_of_vectors_read p;
     current_example := current_example p;
     current_feature_vector := current_feature_vector p; current_label := v;
     current_len := current_len p;
     free_after_release := free_after_release p; ring_size := ring_size p;
     examples_state_lock := examples_state_lock p;
     keep_running := keep_running p; trace := trace p |}.

Definition upd_current_len (v : Z) (p : InputParser) : InputParser :=
  {| parsing_done := parsing_done p; reading_done := reading_done p;
     example_type := example_type p; read_vector := read_vector p;
     read_vector_and_label := read_vector_and_label p;
     input_source := input_source p; parse_thread := parse_thread p;
     examples_ring := examples_ring p;
     number_of_vectors_parsed := number_of_vectors_parsed p;
     number_of_vectors_read := number_of_vectors_read p;
     current_example := current_example p;
     current_feature_vector := current_feature_vector p;
     current_label := current_label p; current_len := v;
     free_after_release := free_after_release p; ring_size := ring_size p;
     examples_state_lock := examples_state_lock p;
     keep_running := keep_running p; trace := trace p |}.

Definition upd_free_after_release (v : bool) (p : InputParser) : InputParser :=
  {| parsing_done := parsing_done p; reading_done := reading_done p;
     example_type := example_type p; read_vector := read_vector p;
     read_vector_and_label := read_vector_and_label p;
     input_source := input_source p; parse_thread := parse_thread p;
     examples_ring := examples_ring p;
     number_of_vectors_parsed := number_of_vectors_parsed p;
     number_of_vectors_read := number_of_vectors_read p;
     current_example := current_example p;
     current_feature_vector := current_feature_vector p;
     current_label := current_label p; current_len := current_len p;
     free_after_release := v; ring_size := ring_size p;
     examples_state_lock := examples_state_lock p;
     keep_running := keep_running p; trace := trace p |}.

Definition upd_ring_size (v : Z) (p : InputParser) : InputParser :=
  {| parsing_done := parsing_done p; reading_done := reading_done p;
     example_type := example_type p; read_vector := read_vector p;
     read_vector_and_label := read_vector_and_label p;
     input_source := input_source p; parse_thread := parse_thread p;
     examples_ring := examples_ring p;
     number_of_vectors_parsed := number_of_vectors_parsed p;
     number_of_vectors_read := number_of_vectors_read p;
     current_example := current_example p;
     current_feature_vector := current_feature_vector p;
     current_label := current_label p; current_len := current_len p;
     free_after_release := free_after_release p; ring_size := v;
     examples_state_lock := examples_state_lock p;
     keep_running := keep_running p; trace := trace p |}.

Definition upd_examples_state_lock (v : option thread) (p : InputParser) : InputParser :=
  {| parsing_done := parsing_done p; reading_done := reading_done p;
     example_type := example_type p; read_vector := read_vector p;
     read_vector_and_label := read_vector_and_label p;
     input_source := input_source p; parse_thread := parse_thread p;
     examples_ring := examples_ring p;
     number_of_vectors_parsed := number_of_vectors_parsed p;
     number_of_vectors_read := number_of_vectors_read p;
     current_example := current_example p;
     current_feature_vector := current_feature_vector p;
     current_label := current_label p; current_len := current_len p;
     free_after_release := free_after_release p; ring_size := ring_size p;
     examples_state_lock := v; keep_running := keep_running p;
     trace := trace p |}.

Definition upd_keep_running (v : bool) (p : InputParser) : InputParser :=
  {| parsing_done := parsing_done p; reading_done := reading_done p;
     example_type := example_type p; read_vector := read_vector p;
     read_vector_and_label := read_vector_and_label p;
     input_source := input_source p; parse_thread := parse_thread p;
     examples_ring := examples_ring p;
     number_of_vectors_parsed := number_of_vectors_parsed p;
     number_of_vectors_read := number_of_vectors_read p;
     current_example := current_example p;
     current_feature_vector := current_feature_vector p;
     current_label := current_label p; current_len := current_len p;
     free_after_release := free_after_release p; ring_size := ring_size p;
     examples_state_lock := examples_state_lock p; keep_running := v;
     trace := trace p |}.

Definition upd_trace (v : list event) (p : InputParser) : InputParser :=
  {| parsing_done := parsing_done p; reading_done := reading_done p;
     example_type := example_type p; read_vector := read_vector p;
     read_vector_and_label := read_vector_and_label p;
     input_source := input_source p; parse_thread := parse_thread p;
     examples_ring := examples_ring p;
     number_of_vectors_parsed := number_of_vectors_parsed p;
     number_of_vectors_read := number_of_vectors_read p;
     current_example := current_example p;
     current_feature_vector := current_feature_vector p;
     current_label := current_label p; current_len := current_len p;
     free_after_release := free_after_release p; ring_size := ring_size p;
     examples_state_lock := examples_state_lock p;
     keep_running := keep_running p; trace := v |}.

(** ** The monad of method bodies *)

Definition M (A : Type) : Type := InputParser -> outcome (A * InputParser).

Definition ret {A : Type} (a : A) : M A := fun p => Ok (a, p).

Definition bind {A B : Type} (m : M A) (k : A -> M B) : M B :=
  fun p =>
    match m p with
    | Ok (a, p') => k a p'
    | Blocked => Blocked
    | Undefined => Undefined
    end.

Notation "'let*' x ':=' m 'in' k" := (bind m (fun x => k))
  (at level 10, x name, m at level 200, k at level 200).

Definition get : M InputParser := fun p => Ok (p, p).

Definition modify (f : InputParser -> InputParser) : M unit :=
  fun p => Ok (tt, f p).

Definition undefined {A : Type} : M A := fun _ => Undefined.

Definition emit (e : event) : M unit :=
  modify (fun p => upd_trace (e :: trace p) p).

(** [examples_state_lock.lock()]: waits while the other thread owns the
    mutex; locking a [std::mutex] one already owns is undefined. *)
Definition lock (t : thread) : M unit :=
  fun p =>
    match examples_state_lock p with
    | None => Ok (tt, upd_examples_state_lock (Some t) p)
    | Some o => if thread_eqb o t then Undefined else Blocked
    end.

(** [unlock()], also as run by the destructor of a guard that owns the
    mutex. *)
Definition unlock : M unit := modify (upd_examples_state_lock None).

(** [examples_state_changed.notify_one()]. *)
Definition notify_one : M unit := emit EvNotify.

(** [++] on an [int32_t]. *)
Definition incr32 (z : Z) : M Z :=
  if z <? INT32_MAX then ret (z + 1) else undefined.

(** A call through [examples_ring->]: a null ring has no defined behaviour, a
    waiting ring call makes the caller wait. *)
Definition ring_call {A : Type} (f : ParseBuffer -> outcome (A * ParseBuffer))
  : M A :=
  fun p =>
    match examples_ring p with
    | Some rb =>
        match f rb with
        | Ok (a, rb') => Ok (a, upd_examples_ring (Some rb') p)
        | Blocked => Blocked
        | Undefined => Undefined
        end
    | None => Undefined
    end.

Definition ring_exec (f : ParseBuffer -> outcome ParseBuffer) : M unit :=
  ring_call (fun rb =>
    match f rb with
    | Ok rb' => Ok (tt, rb')
    | Blocked => Blocked
    | Undefined => Undefined
    end).

Definition ring_load (ex : nat) : M Example :=
  ring_call (fun rb =>
    match load_example ex rb with
    | Ok e => Ok (e, rb)
    | Blocked => Blocked
    | Undefined => Undefined
    end).

(** ** Methods *)

(** The constructor; [garbage] stands for the members it leaves
    uninitialised. *)
Definition InputParser_new (garbage : InputParser) : InputParser :=
  upd_trace []
    (upd_examples_state_lock None
       (upd_parse_thread false
          (upd_keep_running false
             (upd_reading_done true
                (upd_parsing_done true
                   (upd_examples_ring None
                      (upd_input_source None garbage))))))).

Definition init (input_file : StreamingFile) (is_labelled : bool) (size : Z)
  : M unit :=
  let* _ := modify (upd_input_source (Some input_file)) in
  let* _ := modify (upd_example_type
                      (if is_labelled then E_LABELLED else E_UNLABELLED)) in
  let* _ := modify (upd_examples_ring (Some (ParseBuffer_new size))) in
  let* _ := modify (upd_parsing_done false) in
  let* _ := modify (upd_reading_done false) in
  let* _ := modify (upd_number_of_vectors_parsed 0) in
  let* _ := modify (upd_number_of_vectors_read 0) in
  let* _ := modify (upd_current_len (-1)) in
  let* _ := modify (upd_current_label (-1)%float) in
  let* _ := modify (upd_current_feature_vector None) in
  let* _ := modify (upd_free_after_release true) in
  modify (upd_ring_size size).

Definition set_read_vector (func_ptr : read_vector_fn) : M unit :=
  modify (upd_read_vector (Some func_ptr)).

Definition set_read_vector_and_label (func_ptr : read_vector_and_label_fn)
  : M unit :=
  modify (upd_read_vector_and_label (Some func_ptr)).

Definition set_free_vector_after_release (free_vec : bool) : M unit :=
  modify (upd_free_after_release free_vec).

Definition set_free_vectors_on_destruct (destroy : bool) : M unit :=
  ring_exec (fun rb => Ok (ring_set_free_vectors_on_destruct destroy rb)).

Definition is_running (t : thread) : M bool :=
  let* _ := lock t in
  let* p := get in
  let r := if parsing_done p
           then (if reading_done p then false else true)
           else false in
  let* _ := unlock in
  ret r.

(** The reference parameters are passed in by value and handed back with
    the returned [int32_t]. *)
Definition get_vector_and_label (feature_vector : vector) (len : Z)
  (lbl : float) : M (Z * (vector * Z * float)) :=
  let* p := get in
  match input_source p, read_vector_and_label p with
  | Some src, Some f =>
      let r := f src feature_vector len lbl in
      let* _ := modify (upd_input_source (Some (fst r))) in
      let* _ := emit (EvSourceRead (snd (fst (snd r)))) in
      if snd (fst (snd r)) <? 1 then ret (0, snd r) else ret (1, snd r)
  | _, _ => undefined
  end.

Definition get_vector_only (feature_vector : vector) (len : Z)
  : M (Z * (vector * Z)) :=
  let* p := get in
  match input_source p, read_vector p with
  | Some src, Some f =>
      let r := f src feature_vector len in
      let* _ := modify (upd_input_source (Some (fst r))) in
      let* _ := emit (EvSourceRead (snd (snd r))) in
      if snd (snd r) <? 1 then ret (0, snd r) else ret (1, snd r)
  | _, _ => undefined
  end.

Definition copy_example_into_buffer (ex : nat) : M unit :=
  let* _ := ring_exec (copy_example ex) in
  emit (EvCopy ex).

Definition retrieve_example : M (option nat) :=
  let* p := get in
  if parsing_done p
     && (number_of_vectors_read p =? number_of_vectors_parsed p)
  then
    let* _ := modify (upd_reading_done true) in
    let* _ := notify_one in
    ret None
  else if number_of_vectors_parsed p <=? 0 then ret None
  else if number_of_vectors_read p =? number_of_vectors_parsed p then ret None
  else
    let* ex := ring_call get_unused_example in
    let* _ := emit (EvGetUnused ex) in
    let* n := incr32 (number_of_vectors_read p) in
    let* _ := modify (upd_number_of_vectors_read n) in
    ret (Some ex).

Definition finalize_example : M unit :=
  let* p := get in
  let* i := ring_call (ring_finalize_example (free_after_release p)) in
  emit (EvFinalize i).

(** ** The parse thread: [main_parse_loop] *)

(** Program points of [main_parse_loop], one per stretch of code that runs
    without waiting and without taking or giving up the mutex in its
    middle. *)
Inductive wpc : Type :=
| W_loop       (* while (keep_running.load()); the assignment of
                  input_source to itself before the loop does nothing *)
| W_lock       (* std::unique_lock lock(examples_state_lock) *)
| W_check      (* if (parsing_done) return NULL; lock.unlock() *)
| W_get_free   (* current_example = examples_ring->get_free_example() *)
| W_read       (* copy the slot into current_*, call the read operation,
                  test current_len < 0 *)
| W_lock_eof   (* lock.lock() of the end-of-stream branch *)
| W_eof        (* parsing_done = true; notify_one(); return NULL *)
| W_publish    (* write current_* back into the slot; copy_example *)
| W_lock_pub   (* lock.lock() after publication *)
| W_count      (* number_of_vectors_parsed++; notify_one(); end of body *)
| W_done.      (* main_parse_loop has returned *)

Definition block {A : Type} : M A := fun _ => Blocked.

Definition the_current_example : M nat :=
  let* p := get in
  match current_example p with
  | Some i => ret i
  | None => undefined
  end.

Definition worker_step (pc : wpc) : M wpc :=
  match pc with
  | W_loop =>
      let* p := get in
      ret (if keep_running p then W_lock else W_done)
  | W_lock =>
      let* _ := lock ParseThread in
      ret W_check
  | W_check =>
      let* p := get in
      let* _ := unlock in
      ret (if parsing_done p then W_done else W_get_free)
  | W_get_free =>
      let* i := ring_call get_free_example in
      let* _ := emit (EvGetFree i) in
      let* _ := modify (upd_current_example (Some i)) in
      ret W_read
  | W_read =>
      let* i := the_current_example in
      let* e := ring_load i in
      let* _ := modify (upd_current_feature_vector (fv e)) in
      let* _ := modify (upd_current_len (length e)) in
      let* _ := modify (upd_current_label (label e)) in
      let* p := get in
      let* _ :=
        match example_type p with
        | E_LABELLED =>
            let* r := get_vector_and_label (current_feature_vector p)
                        (current_len p) (current_label p) in
            let* _ := modify (upd_current_feature_vector (fst (fst (snd r)))) in
            let* _ := modify (upd_current_len (snd (fst (snd r)))) in
            modify (upd_current_label (snd (snd r)))
        | E_UNLABELLED =>
            let* r := get_vector_only (current_feature_vector p)
                        (current_len p) in
            let* _ := modify (upd_current_feature_vector (fst (snd r))) in
            modify (upd_current_len (snd (snd r)))
        end in
      let* p := get in
      ret (if current_len p <? 0 then W_lock_eof else W_publish)
  | W_lock_eof =>
      let* _ := lock ParseThread in
      ret W_eof
  | W_eof =>
      let* _ := modify (upd_parsing_done true) in
      let* _ := notify_one in
      let* _ := unlock in
      ret W_done
  | W_publish =>
      let* p := get in
      let* i := the_current_example in
      let* _ := ring_exec (store_example i
                  (mkExample (current_feature_vector p) (current_len p)
                     (current_label p))) in
      let* _ := copy_example_into_buffer i in
      ret W_lock_pub
  | W_lock_pub =>
      let* _ := lock ParseThread in
      ret W_count
  | W_count =>
      let* p := get in
      let* n := incr32 (number_of_vectors_parsed p) in
      let* _ := modify (upd_number_of_vectors_parsed n) in
      let* _ := notify_one in
      let* _ := unlock in
      ret W_loop
  | W_done => block
  end.

(** ** The calling thread *)

(** Program points of the caller: outside any method, waiting in
    [parse_thread.join()], or inside [get_next_example]. *)
Inductive cpc : Type :=
| C_idle
| C_join       (* parse_thread.join() *)
| N_loop       (* while (keep_running.load()) *)
| N_check      (* if (reading_done) return 0 *)
| N_lock       (* std::unique_lock lock(examples_state_lock) *)
| N_retrieve   (* ex = retrieve_example() and the branches on ex *)
| N_wait       (* examples_state_changed.wait(lock); continue *)
| N_after.     (* fv = ex->fv; length = ex->length; label = ex->label;
                  return 1 *)

Inductive value : Type :=
| VVoid
| VInt (z : Z)
| VBool (b : bool)
| VError.

(** The parser object, the thread behind [parse_thread] when there is one,
    and the caller with the locals of [get_next_example]: [ex], and the
    objects its three reference parameters are bound to. *)
Record System : Type := mkSystem {
  parser : InputParser;
  worker : option wpc;
  caller : cpc;
  ex : option nat;
  arg_fv : vector;
  arg_length : Z;
  arg_label : float;
  returned : option value;
  terminated : bool
}.

Definition set_parser (p : InputParser) (s : System) : System :=
  mkSystem p (worker s) (caller s) (ex s) (arg_fv s) (arg_length s)
    (arg_label s) (returned s) (terminated s).

Definition set_worker (w : option wpc) (s : System) : System :=
  mkSystem (parser s) w (caller s) (ex s) (arg_fv s) (arg_length s)
    (arg_label s) (returned s) (terminated s).

Definition set_caller (c : cpc) (s : System) : System :=
  mkSystem (parser s) (worker s) c (ex s) (arg_fv s) (arg_length s)
    (arg_label s) (returned s) (terminated s).

Definition set_ex (e : option nat) (s : System) : System :=
  mkSystem (parser s) (worker s) (caller s) e (arg_fv s) (arg_length s)
    (arg_label s) (returned s) (terminated s).

Definition set_args (v : vector) (len : Z) (lbl : float) (s : System)
  : System :=
  mkSystem (parser s) (worker s) (caller s) (ex s) v len lbl (returned s)
    (terminated s).

Definition set_terminated (b : bool) (s : System) : System :=
  mkSystem (parser s) (worker s) (caller s) (ex s) (arg_fv s) (arg_length s)
    (arg_label s) (returned s) b.

(** A method returns [v] to the caller. *)
Definition return_ (v : value) (s : System) : System :=
  mkSystem (parser s) (worker s) C_idle (ex s) (arg_fv s) (arg_length s)
    (arg_label s) (Some v) (terminated s).

(** Runs a method body on the parser of the system. *)
Definition on_parser {A : Type} (m : M A) (s : System)
  (k : A -> System -> System) : outcome System :=
  match m (parser s) with
  | Ok (a, p') => Ok (k a (set_parser p' s))
  | Blocked => Blocked
  | Undefined => Undefined
  end.

(** [start_parser].  [error] (SGIO.h) raises, so nothing after it runs.  The
    new [std::thread] is constructed before it is move-assigned to
    [parse_thread]; assigning to a joinable [std::thread] calls
    [std::terminate]. *)
Definition start_parser (s : System) : outcome System :=
  on_parser (is_running Caller) s (fun running s1 =>
    if running then
      return_ VError (set_parser (upd_trace (EvError :: trace (parser s1))
                                    (parser s1)) s1)
    else
      let p1 := upd_examples_ring
                  (option_map init_vector (examples_ring (parser s1)))
                  (parser s1) in
      let p2 := upd_keep_running true p1 in
      let p3 := upd_trace (EvSpawn :: trace p2) p2 in
      if parse_thread p3 then set_terminated true (set_parser p3 s1)
      else return_ VVoid
             (set_worker (Some W_loop)
                (set_parser (upd_parse_thread true p3) s1))).

Definition end_parser (s : System) : outcome System :=
  if parse_thread (parser s) then Ok (set_caller C_join s)
  else Ok (return_ VVoid s).

Definition exit_parser (s : System) : outcome System :=
  on_parser (let* _ := modify (upd_keep_running false) in notify_one) s
    (fun _ s1 =>
       if parse_thread (parser s1) then set_caller C_join s1
       else return_ VVoid s1).

(** [parse_thread.join()] returns once the thread has finished. *)
Definition join (s : System) : outcome System :=
  match worker s with
  | Some W_done =>
      let p := parser s in
      Ok (return_ VVoid
            (set_worker None
               (set_parser (upd_trace (EvJoin :: trace p)
                              (upd_parse_thread false p)) s)))
  | _ => Blocked
  end.

(** Entering the three-argument [get_next_example]: [ex] is declared and
    not initialised. *)
Definition enter_get_next_example (v : vector) (len : Z) (lbl : float)
  (s : System) : System :=
  set_caller N_loop (set_ex None (set_args v len lbl s)).

(** One stretch of the caller's code inside a method it has entered. *)
Definition caller_step (s : System) : outcome System :=
  match caller s with
  | C_idle => Blocked
  | C_join => join s
  | N_loop =>
      Ok (set_caller (if keep_running (parser s) then N_check else N_after) s)
  | N_check =>
      Ok (if reading_done (parser s) then return_ (VInt 0) s
          else set_caller N_lock s)
  | N_lock => on_parser (lock Caller) s (fun _ s1 => set_caller N_retrieve s1)
  | N_retrieve =>
      on_parser
        (let* r := retrieve_example in
         let* p := get in
         let* _ := unlock in
         ret (r, reading_done p)) s
        (fun r s1 =>
           match fst r with
           | None =>
               if snd r then return_ (VInt 0) (set_ex None s1)
               else set_caller N_wait (set_ex None s1)
           | Some i => set_caller N_after (set_ex (Some i) s1)
           end)
  | N_wait =>
      on_parser (let* _ := lock Caller in unlock) s
        (fun _ s1 => set_caller N_loop s1)
  | N_after =>
      match ex s with
      | Some i =>
          on_parser (ring_load i) s (fun e s1 =>
            return_ (VInt 1) (set_args (fv e) (length e) (label e) s1))
      | None => Undefined
      end
  end.

(** The public methods the caller may enter in the course of a run; a run
    starts from a parser that [init] has set up (see [boot]). *)
Inductive api_call : Type :=
| Call_set_read_vector (func_ptr : read_vector_fn)
| Call_set_read_vector_and_label (func_ptr : read_vector_and_label_fn)
| Call_set_free_vector_after_release (free_vec : bool)
| Call_set_free_vectors_on_destruct (destroy : bool)
| Call_start_parser
| Call_is_running
| Call_get_next_example (v : vector) (len : Z) (lbl : float)
| Call_get_next_example_unlabelled (v : vector) (len : Z) (label_dummy : float)
| Call_finalize_example
| Call_end_parser
| Call_exit_parser.

Definition do_call (c : api_call) (s : System) : outcome System :=
  match c with
  | Call_set_read_vector f =>
      on_parser (set_read_vector f) s (fun _ => return_ VVoid)
  | Call_set_read_vector_and_label f =>
      on_parser (set_read_vector_and_label f) s (fun _ => return_ VVoid)
  | Call_set_free_vector_after_release b =>
      on_parser (set_free_vector_after_release b) s (fun _ => return_ VVoid)
  | Call_set_free_vectors_on_destruct b =>
      on_parser (set_free_vectors_on_destruct b) s (fun _ => return_ VVoid)
  | Call_start_parser => start_parser s
  | Call_is_running =>
      on_parser (is_running Caller) s (fun b => return_ (VBool b))
  | Call_get_next_example v len lbl =>
      Ok (enter_get_next_example v len lbl s)
  | Call_get_next_example_unlabelled v len label_dummy =>
      Ok (enter_get_next_example v len label_dummy s)
  | Call_finalize_example =>
      on_parser finalize_example s (fun _ => return_ VVoid)
  | Call_end_parser => end_parser s
  | Call_exit_parser => exit_parser s
  end.

(** ** Interleaved execution *)

Inductive action : Type :=
| A_worker                (* the parse thread runs to its next point *)
| A_caller                (* the caller runs to its next point *)
| A_call (c : api_call).  (* the caller, outside any method, enters one *)

Definition step (a : action) (s : System) : outcome System :=
  if terminated s then Blocked
  else
    match a with
    | A_worker =>
        match worker s with
        | Some pc =>
            on_parser (worker_step pc) s (fun pc' => set_worker (Some pc'))
        | None => Blocked
        end
    | A_caller => caller_step s
    | A_call c =>
        match caller s with
        | C_idle => do_call c s
        | _ => Blocked
        end
    end.

Fixpoint run (sched : list action) (s : System) : outcome System :=
  match sched with
  | [] => Ok s
  | a :: rest =>
      match step a s with
      | Ok s' => run rest s'
      | Blocked => Blocked
      | Undefined => Undefined
      end
  end.

(** A freshly constructed parser after its [init]: no parse thread, the
    caller outside any method. *)
Definition initialised (garbage : InputParser) (input_file : StreamingFile)
  (is_labelled : bool) (size : Z) : InputParser :=
  match init input_file is_labelled size (InputParser_new garbage) with
  | Ok (_, p) => p
  | _ => InputParser_new garbage
  end.

Definition boot (garbage : InputParser) (input_file : StreamingFile)
  (is_labelled : bool) (size : Z) : System :=
  mkSystem (initialised garbage input_file is_labelled size) None C_idle None
    None 0 0%float None false.

(** [exec s0 h s]: [s] is reached from [s0]; [h] lists, newest first, the
    states passed and the action taken in each. *)
Inductive exec (s0 : System) : list (System * action) -> System -> Prop :=
| exec_nil : exec s0 [] s0
| exec_step h s a s' :
    exec s0 h s -> step a s = Ok s' -> exec s0 ((s, a) :: h) s'.

End Parser.

(** ** A concrete source

    A stream source over [T := Z] whose state is the list of records still to
    be read; past the last record every read answers a negative length. *)

Definition record : Type := (list Z * Z * float)%type.

Definition list_source : Type := list record.

Definition read_labelled : @read_vector_and_label_fn Z list_source :=
  fun src v len lbl =>
    match src with
    | [] => ([], (v, -1, lbl))
    | (x, n, l) :: rest => (rest, (Some x, n, l))
    end.

Definition read_unlabelled : @read_vector_fn Z list_source :=
  fun src v len =>
    match src with
    | [] => ([], (v, -1))
    | (x, n, l) :: rest => (rest, (Some x, n))
    end.

(** Arbitrary contents for the members the constructor does not set. *)
Definition raw_memory : @InputParser Z list_source :=
  mkInputParser false false E_UNLABELLED None None None true None 7 9 None
    None 0%float 3 false 0 (Some ParseThread) true [EvError].

(** [init(source, true, size)], both read operations set, [start_parser()]. *)
Definition configure : list (@action Z list_source) :=
  [A_call (Call_set_read_vector_and_label read_labelled);
   A_call (Call_set_read_vector read_unlabelled)].

Definition started (input : list_source) (size : Z)
  : outcome (@System Z list_source) :=
  run (configure ++ [A_call Call_start_parser])
    (boot raw_memory input true size).

(** The parse thread's schedule of one iteration that publishes an
    example: its eight program points from [W_loop] to [W_count]. *)
Definition publish_iteration : list (@action Z list_source) :=
  repeat A_worker 8.

Definition then_run {T StreamingFile : Type}
  (o : outcome (@System T StreamingFile))
  (sched : list (@action T StreamingFile)) : outcome (@System T StreamingFile) :=
  match o with
  | Ok s => run sched s
  | Blocked => Blocked
  | Undefined => Undefined
  end.

(** Scenario "malformed record" of the specification: one good example, then
    a record of length 0. *)
Definition malformed_input : list_source :=
  [([1; 2], 2, 0%float); ([], 0, 5%float)].

(** The state a schedule leads to from a started parser, for schedules
    that run through. *)
Definition state_after (input : list_source) (size : Z)
  (sched : list (@action Z list_source)) : @System Z list_source :=
  match then_run (started input size) sched with
  | Ok s => s
  | _ => boot raw_memory input true size
  end.

(** The caller's schedule of one [get_next_example] that finds an example
    ready, and of its [finalize_example]. *)
Definition next_example : list (@action Z list_source) :=
  A_call (Call_get_next_example None 0 0%float) :: repeat A_caller 5.

Definition finalize : list (@action Z list_source) :=
  [A_call Call_finalize_example].

(** [exit_parser()] with the parse thread at the head of its loop, then
    the entry into [get_next_example] and its test of [keep_running]. *)
Definition abort_then_next : list (@action Z list_source) :=
  [A_call Call_exit_parser; A_worker; A_caller;
   A_call (Call_get_next_example None 0 0%float); A_caller].

(** One example is published and the caller stands at its call of
    [retrieve_example]. *)
Definition at_retrieve : list (@action Z list_source) :=
  publish_iteration
  ++ [A_call (Call_get_next_example None 0 0%float); A_caller; A_caller;
      A_caller].

(** An empty stream: the parse thread stands at its first read. *)
Definition before_read : list (@action Z list_source) := repeat A_worker 4.

(** Both records published, the first one fetched. *)
Definition one_fetched : list (@action Z list_source) :=
  publish_iteration ++ publish_iteration ++ next_example.

(** ** Observations on states *)

Section Observations.

Context {T StreamingFile : Type}.

Implicit Types (p : @InputParser T StreamingFile)
  (s : @System T StreamingFile).

(** The number of reads of the source that answered a length of 0 or
    more: the reads [main_parse_loop] goes on to publish. *)
Definition nonnegative_reads s : Z :=
  Z.of_nat (List.length (List.filter is_nonnegative_read (trace (parser s)))).

(** The number of examples the source has produced. *)
Definition N_source s : Z :=
  Z.of_nat (List.length (List.filter is_example_read (trace (parser s)))).

Definition copies s : nat :=
  List.length (List.filter is_copy (trace (parser s))).

(** An example the parse thread has read and not yet counted. *)
Definition pending (w : option wpc) : Z :=
  match w with
  | Some W_publish | Some W_lock_pub | Some W_count => 1
  | _ => 0
  end.

Definition counters_ok s : Prop :=
  0 <= number_of_vectors_read (parser s)
  /\ number_of_vectors_read (parser s) <= number_of_vectors_parsed (parser s)
  /\ number_of_vectors_parsed (parser s) + pending (worker s)
     <= nonnegative_reads s
  /\ number_of_vectors_parsed (parser s) <= INT32_MAX
  /\ examples_ring (parser s) <> None.

(** Parsing is done and every parsed vector has been read. *)
Definition drained p : Prop :=
  parsing_done p = true
  /\ number_of_vectors_read p = number_of_vectors_parsed p.

(** The caller is at the call of [retrieve_example] and the parser is
    drained. *)
Definition observes_drained (sa : @System T StreamingFile * @action T StreamingFile)
  : Prop :=
  snd sa = A_caller
  /\ caller (fst sa) = N_retrieve
  /\ parsing_done (parser (fst sa)) = true
  /\ number_of_vectors_read (parser (fst sa))
     = number_of_vectors_parsed (parser (fst sa)).

(** A state with the label object of [get_next_example] blanked. *)
Definition forget_label s : @System T StreamingFile :=
  set_args (arg_fv s) (arg_length s) 0%float s.

Definition outcome_map {A B : Type} (f : A -> B) (o : outcome A) : outcome B :=
  match o with
  | Ok a => Ok (f a)
  | Blocked => Blocked
  | Undefined => Undefined
  end.

End Observations.

(** ** Further observations *)

Section MoreObservations.

Context {T StreamingFile : Type}.

Implicit Types (p : @InputParser T StreamingFile)
  (s : @System T StreamingFile).

(** The program points at which a thread owns [examples_state_lock]. *)
Definition worker_in_critical (w : option wpc) : bool :=
  match w with
  | Some W_check | Some W_eof | Some W_count => true
  | _ => false
  end.

Definition caller_in_critical (c : cpc) : bool :=
  match c with
  | N_retrieve => true
  | _ => false
  end.

Definition is_some {A : Type} (o : option A) : bool :=
  match o with
  | Some _ => true
  | None => false
  end.

(** The owner of the mutex is read off the two program counters, the two
    threads are never both inside, and the handle is joinable exactly while
    a thread stands behind it. *)
Definition lock_discipline s : Prop :=
  examples_state_lock (parser s)
  = (if worker_in_critical (worker s) then Some ParseThread
     else if caller_in_critical (caller s) then Some Caller
     else None)
  /\ worker_in_critical (worker s) && caller_in_critical (caller s) = false
  /\ parse_thread (parser s) = is_some (worker s).

(** The program points of the loop body past the test of [parsing_done]. *)
Definition worker_in_body (w : option wpc) : bool :=
  match w with
  | Some W_get_free | Some W_read | Some W_lock_eof | Some W_eof
  | Some W_publish | Some W_lock_pub | Some W_count => true
  | _ => false
  end.

Definition flags_ok s : Prop :=
  (parsing_done (parser s) = true -> worker_in_body (worker s) = false)
  /\ (reading_done (parser s) = true -> drained (parser s)).

Definition is_get_unused (e : event) : bool :=
  match e with EvGetUnused _ => true | _ => false end.

Definition fetches s : nat :=
  List.length (List.filter is_get_unused (trace (parser s))).

(** A published example whose count is still to come. *)
Definition uncounted (w : option wpc) : Z :=
  match w with
  | Some W_lock_pub | Some W_count => 1
  | _ => 0
  end.

Definition ring_calls_counted s : Prop :=
  Z.of_nat (fetches s) = number_of_vectors_read (parser s)
  /\ Z.of_nat (copies s)
     = number_of_vectors_parsed (parser s) + uncounted (worker s).


End MoreObservations.

(** ** Sessions on the concrete source *)

(** A parser that was constructed and started without [init]. *)
Definition started_without_init : outcome (@System Z list_source) :=
  run [A_call Call_start_parser]
    (mkSystem (InputParser_new raw_memory) None C_idle None None 0 0%float
       None false).

(** The parse thread has met the end of an empty stream. *)
Definition at_end_of_stream : list (@action Z list_source) :=
  repeat A_worker 7.


(** What one [get_next_example] hands to its caller: the returned value and
    the three out parameters. *)
Definition delivery : Type :=
  (option value * option (list Z) * Z * float)%type.

Definition delivered (s : @System Z list_source) : delivery :=
  (returned s, arg_fv s, arg_length s, arg_label s).

(** [n] rounds of a strictly alternating session: the parse thread runs one
    publishing iteration, the caller fetches the example and finalizes
    it. *)
Fixpoint consume (n : nat) (s : @System Z list_source)
  : outcome (list delivery * @System Z list_source) :=
  match n with
  | O => Ok ([], s)
  | S n' =>
      match run (publish_iteration ++ next_example) s with
      | Ok s1 =>
          match run finalize s1 with
          | Ok s2 =>
              match consume n' s2 with
              | Ok (l, s3) => Ok (delivered s1 :: l, s3)
              | Blocked => Blocked
              | Undefined => Undefined
              end
          | Blocked => Blocked
          | Undefined => Undefined
          end
      | Blocked => Blocked
      | Undefined => Undefined
      end
  end.

(** The iteration that meets the end of the stream, then one more
    [get_next_example] up to its return. *)
Definition drain : list (@action Z list_source) :=
  repeat A_worker 7
  ++ A_call (Call_get_next_example None 0 0%float) :: repeat A_caller 4.

(** A whole session: construct, [init], set the read operations,
    [start_parser], one round per record, then [drain]. *)
Definition session (garbage : @InputParser Z list_source)
  (input : list_source) (is_labelled : bool) (size : Z)
  : outcome (list delivery * delivery) :=
  match run (configure ++ [A_call Call_start_parser])
          (boot garbage input is_labelled size) with
  | Ok s0 =>
      match consume (List.length input) s0 with
      | Ok (l, s1) =>
          match run drain s1 with
          | Ok s2 => Ok (l, delivered s2)
          | Blocked => Blocked
          | Undefined => Undefined
          end
      | Blocked => Blocked
      | Undefined => Undefined
      end
  | Blocked => Blocked
  | Undefined => Undefined
  end.

Definition as_delivered (r : record) : delivery :=
  (Some (VInt 1), Some (fst (fst r)), snd (fst r), snd r).

Definition without_label (d : delivery) : option value * option (list Z) * Z :=
  fst d.

(** The parser between two rounds: [c] vectors parsed and read, both ring
    cursors at [k], every slot EMPTY, the mutex free, the parse thread at
    the head of its loop, the caller outside any method. *)
Definition between_rounds (et : E_EXAMPLE_TYPE) (c : Z) (k : nat)
  (rest : list_source) (s : @System Z list_source) : Prop :=
  exists ce cfv clab clen far rs tr sl fd e av al alb r,
    s = mkSystem
          (mkInputParser false false et (Some read_unlabelled)
             (Some read_labelled)
             (Some rest) true (Some (mkParseBuffer sl k k fd)) c c ce cfv
             clab clen far rs None true tr)
          (Some W_loop) C_idle e av al alb r false
    /\ (0 < List.length sl)%nat
    /\ Forall (fun x : Example * slot_state => snd x = EMPTY) sl.

(** * Properties *)

Section Facts.

Context {T StreamingFile : Type}.
Implicit Types (p garbage : @InputParser T StreamingFile)
  (s u v : @System T StreamingFile) (a : @action T StreamingFile)
  (input_file : StreamingFile).

Ltac unfold_monad :=
  unfold bind, ret, get, modify, undefined, block, emit, notify_one, unlock, lock,
    incr32, ring_call, ring_exec, ring_load, the_current_example in *.

Ltac unfold_methods :=
  unfold is_running, retrieve_example, finalize_example,
    copy_example_into_buffer, get_vector_and_label, get_vector_only,
    set_read_vector, set_read_vector_and_label, set_free_vector_after_release,
    set_free_vectors_on_destruct in *.

Ltac unfold_steps :=
  unfold step, do_call, caller_step, start_parser, end_parser, exit_parser,
    join, enter_get_next_example, on_parser, worker_step in *.

Ltac split_match :=
  match goal with
  | H : context [match ?x with _ => _ end] |- _ =>
      let E := fresh "E" in destruct x eqn:E; simpl in H; try discriminate H
  | H : context [if ?x then _ else _] |- _ =>
      let E := fresh "E" in destruct x eqn:E; simpl in H; try discriminate H
  end.

(** Case analysis of one step: [H] is [step a s = Ok s']. *)
Ltac crunch H :=
  repeat (first [ progress unfold_steps | progress unfold_methods
                | progress unfold_monad | progress simpl in * | split_match ]).

Ltac finish :=
  repeat match goal with
  | H : Ok _ = Ok _ |- _ => inversion H; subst; clear H
  | H : Some _ = Some _ |- _ => inversion H; subst; clear H
  | H : (_, _) = (_, _) |- _ => inversion H; subst; clear H
  end; simpl in *.

Lemma step_monotone a s s' :
  step a s = Ok s' ->
  number_of_vectors_read (parser s) <= number_of_vectors_read (parser s')
  /\ number_of_vectors_parsed (parser s)
     <= number_of_vectors_parsed (parser s').
Proof.
  intros H. destruct a as [| |c]; [| |destruct c]; crunch H; finish; try lia.
Qed.

Lemma pending_range (w : option wpc) : 0 <= pending w <= 1.
Proof. destruct w as [[]|]; simpl; lia. Qed.

Lemma step_counters_ok a s s' :
  step a s = Ok s' -> counters_ok s -> counters_ok s'.
Proof.
  unfold counters_ok, nonnegative_reads.
  intros H (H0 & H1 & H2 & H3 & H4).
  pose proof (pending_range (worker s)) as Hp.
  destruct a as [| |c]; [| |destruct c]; crunch H; finish.
  all: repeat match goal with
       | E : (_ <? _) = true |- _ => apply Z.ltb_lt in E
       | E : (_ <? _) = false |- _ => apply Z.ltb_ge in E
       | E : (_ <=? _) = true |- _ => apply Z.leb_le in E
       | E : (_ <=? _) = false |- _ => apply Z.leb_gt in E
       | E : (_ =? _) = true |- _ => apply Z.eqb_eq in E
       | E : (_ =? _) = false |- _ => apply Z.eqb_neq in E
       end.
  all: simpl in *.
  all: repeat match goal with
       | |- context [if ?b then _ else _] => destruct b eqn:?
       end; simpl in *.
  all: repeat match goal with
       | E : (_ <? _) = true |- _ => apply Z.ltb_lt in E
       | E : (_ <? _) = false |- _ => apply Z.ltb_ge in E
       | E : (_ <=? _) = true |- _ => apply Z.leb_le in E
       | E : (_ <=? _) = false |- _ => apply Z.leb_gt in E
       end.
  all: try (repeat split; try lia; try congruence; fail).
  all: destruct (examples_ring (parser s)); simpl;
    repeat split; try lia; congruence.
Qed.

Lemma boot_counters_ok garbage input_file is_labelled size :
  counters_ok (boot garbage input_file is_labelled size).
Proof.
  unfold counters_ok, nonnegative_reads, boot, initialised, INT32_MAX. simpl.
  repeat split; try lia. discriminate.
Qed.

Lemma exec_counters_ok s0 h s :
  counters_ok s0 -> exec s0 h s -> counters_ok s.
Proof.
  intros H0 Hx. induction Hx as [|h s a s' _ IH Hs]; [assumption|].
  eapply step_counters_ok; eassumption.
Qed.

(** [reading_done] is never cleared by a step. *)
Lemma step_reading_done_stays a s s' :
  step a s = Ok s' ->
  reading_done (parser s) = true -> reading_done (parser s') = true.
Proof.
  intros H Hr.
  destruct a as [| |c]; [| |destruct c]; crunch H; finish; congruence.
Qed.

Lemma step_reading_done_set a s s' :
  step a s = Ok s' ->
  reading_done (parser s) = false -> reading_done (parser s') = true ->
  observes_drained (s, a).
Proof.
  unfold observes_drained.
  intros H Hr Hr'.
  destruct a as [| |c]; [| |destruct c]; crunch H; finish;
    try congruence.
  apply andb_true_iff in E7 as [? ?%Z.eqb_eq]. auto.
Qed.

Lemma step_observes_sets a s s' :
  step a s = Ok s' -> observes_drained (s, a) ->
  reading_done (parser s') = true.
Proof.
  unfold observes_drained. simpl.
  intros H (-> & Hc & Hp & Hn).
  unfold step, caller_step in H. rewrite Hc in H.
  unfold on_parser, retrieve_example, bind, get in H.
  rewrite Hp, Hn, Z.eqb_refl in H. simpl in H.
  destruct (terminated s); [discriminate|].
  inversion H; subst; reflexivity.
Qed.

(** In a run that starts with [reading_done] clear, the flag is set exactly
    when the history holds an observation of the drained parser. *)
Lemma exec_reading_done s0 h s :
  reading_done (parser s0) = false -> exec s0 h s ->
  reading_done (parser s) = true <-> Exists observes_drained h.
Proof.
  intros H0 Hx. induction Hx as [|h s a s' Hx IH Hs].
  - rewrite H0. split; [discriminate|]. intros H; inversion H.
  - split.
    + intros Hr'. destruct (reading_done (parser s)) eqn:Hr.
      * apply Exists_cons_tl. apply IH. reflexivity.
      * apply Exists_cons_hd. eapply step_reading_done_set; eassumption.
    + intros H. inversion H as [? ? Ho|? ? Ho]; subst.
      * eapply step_observes_sets; eassumption.
      * eapply step_reading_done_stays; [eassumption|]. apply IH, Ho.
Qed.

Lemma boot_reading_done garbage input_file is_labelled size :
  reading_done (parser (boot garbage input_file is_labelled size)) = false.
Proof. reflexivity. Qed.

(** ** [retrieve_example] *)

Lemma retrieve_example_drained p :
  drained p ->
  retrieve_example p
  = Ok (None, upd_trace (EvNotify :: trace p) (upd_reading_done true p)).
Proof.
  intros [Hp Hn]. unfold retrieve_example, bind, get.
  rewrite Hp, Hn, Z.eqb_refl. reflexivity.
Qed.

Lemma retrieve_example_nothing_ready p :
  ~ drained p ->
  number_of_vectors_parsed p = 0
  \/ number_of_vectors_read p = number_of_vectors_parsed p ->
  retrieve_example p = Ok (None, p).
Proof.
  intros Hd Hc. unfold retrieve_example, bind, get.
  destruct (parsing_done p
            && (number_of_vectors_read p =? number_of_vectors_parsed p))
    eqn:E.
  - apply andb_true_iff in E as [? ?%Z.eqb_eq]. exfalso. apply Hd. split; auto.
  - destruct Hc as [Hc|Hc].
    + rewrite Hc. reflexivity.
    + rewrite Hc, Z.eqb_refl. destruct (_ <=? 0); reflexivity.
Qed.

Lemma retrieve_example_next p rb :
  ~ drained p ->
  0 < number_of_vectors_parsed p ->
  number_of_vectors_read p < number_of_vectors_parsed p ->
  number_of_vectors_parsed p <= INT32_MAX ->
  examples_ring p = Some rb ->
  retrieve_example p
  = match get_unused_example rb with
    | Ok (i, rb') =>
        Ok (Some i,
            upd_number_of_vectors_read (number_of_vectors_read p + 1)
              (upd_trace (EvGetUnused i :: trace p)
                 (upd_examples_ring (Some rb') p)))
    | Blocked => Blocked
    | Undefined => Undefined
    end.
Proof.
  intros Hd H0 H1 H2 Hr. unfold retrieve_example, bind, get.
  destruct (parsing_done p
            && (number_of_vectors_read p =? number_of_vectors_parsed p))
    eqn:E.
  - apply andb_true_iff in E as [? ?%Z.eqb_eq]. exfalso. apply Hd. split; auto.
  - destruct (Z.leb_spec (number_of_vectors_parsed p) 0); [lia|].
    destruct (Z.eqb_spec (number_of_vectors_read p)
                (number_of_vectors_parsed p)); [lia|].
    unfold ring_call. rewrite Hr.
    destruct (get_unused_example rb) as [[i rb']| |]; try reflexivity.
    unfold emit, modify, incr32. simpl.
    destruct (Z.ltb_spec (number_of_vectors_read p) INT32_MAX); [|lia].
    reflexivity.
Qed.

Lemma exec_run_from (sched : list (@action T StreamingFile)) s0 h1 s1 s :
  exec s0 h1 s1 -> run sched s1 = Ok s -> exists h, exec s0 h s.
Proof.
  revert h1 s1. induction sched as [|a sched IH]; simpl; intros h1 s1 Hx Hr.
  - inversion Hr; subst. eauto.
  - destruct (step a s1) as [s2| |] eqn:Hs; try discriminate.
    eapply IH; [|exact Hr]. econstructor; eassumption.
Qed.

Lemma step_spawned a s s' :
  step a s = Ok s' ->
  (parse_thread (parser s) = true -> In EvSpawn (trace (parser s))) ->
  parse_thread (parser s') = true -> In EvSpawn (trace (parser s')).
Proof.
  intros H Hi.
  destruct a as [| |c]; [| |destruct c]; crunch H; finish;
    intros; try discriminate; try congruence; auto 6.
  all: right; apply Hi; congruence.
Qed.

Lemma exec_spawned garbage input_file is_labelled size h s :
  exec (boot garbage input_file is_labelled size) h s ->
  parse_thread (parser s) = true -> In EvSpawn (trace (parser s)).
Proof.
  intros Hx. induction Hx as [|h s a s' _ IH Hs].
  - simpl. discriminate.
  - eapply step_spawned; eassumption.
Qed.

Lemma step_forget_label a s1 s2 :
  forget_label s1 = forget_label s2 ->
  outcome_map forget_label (step a s1) = outcome_map forget_label (step a s2).
Proof.
  destruct s1 as [p1 w1 c1 e1 v1 n1 l1 r1 t1], s2 as [p2 w2 c2 e2 v2 n2 l2 r2 t2].
  unfold forget_label, set_args. simpl. intros H. inversion H; subst. clear H.
  destruct a as [| |c]; [| |destruct c].
  all: unfold_steps; simpl.
  all: repeat match goal with
       | |- context [match ?x with _ => _ end] => destruct x eqn:?; simpl
       end; try reflexivity.
Qed.

Lemma run_forget_label (sched : list (@action T StreamingFile)) s1 s2 :
  forget_label s1 = forget_label s2 ->
  outcome_map forget_label (run sched s1)
  = outcome_map forget_label (run sched s2).
Proof.
  revert s1 s2. induction sched as [|a sched IH]; simpl; intros s1 s2 H.
  - congruence.
  - pose proof (step_forget_label a s1 s2 H) as Hs.
    destruct (step a s1) as [u1| |], (step a s2) as [u2| |];
      simpl in Hs; try discriminate; try reflexivity.
    apply IH. congruence.
Qed.

Lemma is_running_value p (t : thread) :
  examples_state_lock p = None ->
  is_running t p
  = Ok (parsing_done p && negb (reading_done p),
        upd_examples_state_lock None (upd_examples_state_lock (Some t) p)).
Proof.
  intros H. unfold is_running, bind, lock, get, unlock, modify, ret.
  rewrite H. simpl. destruct (parsing_done p), (reading_done p); reflexivity.
Qed.

(** A read of non-negative length, zero included, sends the parse thread
    on to publication. *)
Lemma read_nonnegative_goes_to_publish s s1 :
  worker s = Some W_read -> step A_worker s = Ok s1 ->
  0 <= current_len (parser s1) -> worker s1 = Some W_publish.
Proof.
  intros Hs H Hl. unfold step in H. rewrite Hs in H.
  crunch H; finish; try reflexivity.
  all: match goal with
       | E : (_ <? 0) = true |- _ => apply Z.ltb_lt in E; lia
       end.
Qed.

(** With [keep_running] clear the loop of [get_next_example] is left for
    the code after it, not for a [return 0]. *)
Lemma loop_exit_skips_return s :
  terminated s = false -> caller s = N_loop ->
  keep_running (parser s) = false ->
  step A_caller s = Ok (set_caller N_after s).
Proof.
  intros Ht Hc Hk. unfold step, caller_step. rewrite Ht, Hc, Hk. reflexivity.
Qed.

(** ** The claims *)

(** C1.  In every state of a run of an initialised parser, a call of
    [retrieve_example] does one of three things.  When parsing is done and
    every parsed vector has been read, it sets [reading_done], signals the
    condition variable and returns no example.  Otherwise, when nothing has
    been parsed or everything parsed has been read, it returns no example and
    changes nothing.  Otherwise it asks the ring for the next ready slot,
    increments [number_of_vectors_read] and returns that slot.  And a step
    of the run turns [reading_done] from false to true exactly when it is the
    first call of [retrieve_example] in the run that finds the parser
    drained. *)
Theorem retrieve_example_contract garbage input_file is_labelled size h s :
  exec (boot garbage input_file is_labelled size) h s ->
  (drained (parser s) ->
   retrieve_example (parser s)
   = Ok (None, upd_trace (EvNotify :: trace (parser s))
                 (upd_reading_done true (parser s))))
  /\ (~ drained (parser s) ->
      number_of_vectors_parsed (parser s) = 0
      \/ number_of_vectors_read (parser s)
         = number_of_vectors_parsed (parser s) ->
      retrieve_example (parser s) = Ok (None, parser s))
  /\ (~ drained (parser s) ->
      number_of_vectors_parsed (parser s) <> 0 ->
      number_of_vectors_read (parser s)
      <> number_of_vectors_parsed (parser s) ->
      exists rb,
        examples_ring (parser s) = Some rb
        /\ retrieve_example (parser s)
           = match get_unused_example rb with
             | Ok (i, rb') =>
                 Ok (Some i,
                     upd_number_of_vectors_read
                       (number_of_vectors_read (parser s) + 1)
                       (upd_trace (EvGetUnused i :: trace (parser s))
                          (upd_examples_ring (Some rb') (parser s))))
             | Blocked => Blocked
             | Undefined => Undefined
             end)
  /\ (forall a s',
        step a s = Ok s' ->
        reading_done (parser s) = false /\ reading_done (parser s') = true
        <-> observes_drained (s, a)
            /\ Forall (fun x => ~ observes_drained x) h).
Proof.
  intros Hx.
  pose proof (exec_counters_ok _ _ _
                (boot_counters_ok garbage input_file is_labelled size) Hx)
    as (H0 & H1 & H2 & H3 & H4).
  pose proof (exec_reading_done _ _ _
                (boot_reading_done garbage input_file is_labelled size) Hx)
    as Hrd.
  split; [apply retrieve_example_drained|].
  split; [apply retrieve_example_nothing_ready|].
  split.
  - intros Hd Hp Hn.
    destruct (examples_ring (parser s)) as [rb|] eqn:Hr; [|congruence].
    exists rb. split; [reflexivity|].
    apply retrieve_example_next; auto; lia.
  - intros a s' Hs. rewrite Forall_Exists_neg, <- Hrd. split.
    + intros [Hf Ht]. split.
      * eapply step_reading_done_set; eassumption.
      * congruence.
    + intros [Ho Hn]. split.
      * destruct (reading_done (parser s)); [exfalso; auto|reflexivity].
      * eapply step_observes_sets; eassumption.
Qed.

(** C6.  An iteration of the parse loop in which the read operation answers
    a negative length goes from the read to [lock.lock()] with nothing
    published (ring and [number_of_vectors_parsed] as they were, no
    [copy_example]); the lock step takes the mutex; and from there the
    thread sets [parsing_done], signals the condition variable, gives the
    mutex back and leaves the loop, again without [copy_example] or a change
    of [number_of_vectors_parsed]. *)
Theorem end_of_stream_iteration s s1 u u1 v :
  worker s = Some W_read -> step A_worker s = Ok s1 ->
  current_len (parser s1) < 0 ->
  worker u = Some W_lock_eof -> step A_worker u = Ok u1 ->
  worker v = Some W_eof -> terminated v = false ->
  (worker s1 = Some W_lock_eof
   /\ trace (parser s1)
      = EvSourceRead (current_len (parser s1)) :: trace (parser s)
   /\ examples_ring (parser s1) = examples_ring (parser s)
   /\ number_of_vectors_parsed (parser s1)
      = number_of_vectors_parsed (parser s)
   /\ parsing_done (parser s1) = parsing_done (parser s))
  /\ (worker u1 = Some W_eof
      /\ examples_state_lock (parser u) = None
      /\ parser u1 = upd_examples_state_lock (Some ParseThread) (parser u))
  /\ (exists v1,
        step A_worker v = Ok v1
        /\ worker v1 = Some W_done
        /\ parsing_done (parser v1) = true
        /\ trace (parser v1) = EvNotify :: trace (parser v)
        /\ examples_state_lock (parser v1) = None
        /\ examples_ring (parser v1) = examples_ring (parser v)
        /\ number_of_vectors_parsed (parser v1)
           = number_of_vectors_parsed (parser v)).
Proof.
  intros Hs H Hlen Hu H' Hv Ht.
  split; [|split].
  - clear - Hs H Hlen. unfold step in H. rewrite Hs in H.
    crunch H; finish; try lia.
    all: repeat split; congruence.
  - clear - Hu H'. unfold step in H'. rewrite Hu in H'.
    crunch H'; finish. auto.
  - unfold step. rewrite Ht, Hv. simpl.
    eexists. split; [reflexivity|]. simpl. auto 10.
Qed.

(** In every state of a run of an initialised parser
    [0 <= number_of_vectors_read <= number_of_vectors_parsed], the parsed
    counter is at most the number of reads that answered a length of 0 or
    more, and no step from that state decreases either counter. *)
Lemma counters_monotone_and_bounded_by_reads
  garbage input_file is_labelled size h s :
  exec (boot garbage input_file is_labelled size) h s ->
  (0 <= number_of_vectors_read (parser s)
   /\ number_of_vectors_read (parser s) <= number_of_vectors_parsed (parser s)
   /\ number_of_vectors_parsed (parser s) <= nonnegative_reads s)
  /\ (forall a s',
        step a s = Ok s' ->
        number_of_vectors_read (parser s)
        <= number_of_vectors_read (parser s')
        /\ number_of_vectors_parsed (parser s)
           <= number_of_vectors_parsed (parser s')).
Proof.
  intros Hx.
  pose proof (exec_counters_ok _ _ _
                (boot_counters_ok garbage input_file is_labelled size) Hx)
    as (H0 & H1 & H2 & H3 & H4).
  pose proof (pending_range (worker s)).
  split; [repeat split; lia|].
  intros a s'. apply step_monotone.
Qed.

(** Where the source has answered no length 0, the reads of length 0 or
    more are the examples produced, and the parsed counter is within
    [N_source]. *)
Lemma parsed_bounded_without_empty_records
  garbage input_file is_labelled size h s :
  exec (boot garbage input_file is_labelled size) h s ->
  ~ In (EvSourceRead 0) (trace (parser s)) ->
  number_of_vectors_parsed (parser s) <= N_source s.
Proof.
  intros Hx Hn.
  destruct (counters_monotone_and_bounded_by_reads _ _ _ _ _ _ Hx)
    as ((_ & _ & Hb) & _).
  enough (E : N_source s = nonnegative_reads s) by lia.
  unfold N_source, nonnegative_reads. f_equal. f_equal.
  induction (trace (parser s)) as [|e t IH]; [reflexivity|].
  assert (Ht : ~ In (EvSourceRead 0) t) by (intros Hi; apply Hn; right; exact Hi).
  assert (He : is_example_read e = is_nonnegative_read e).
  { destruct e; try reflexivity. simpl.
    destruct (Z.eq_dec len 0) as [->|Hz]; [exfalso; apply Hn; left; reflexivity|].
    destruct (Z.ltb_spec 0 len), (Z.leb_spec 0 len); try reflexivity; lia. }
  simpl. rewrite He, (IH Ht). reflexivity.
Qed.

(** C8.  Whatever the schedule, the two-argument [get_next_example] and the
    three-argument one leave the same system but for the label object: the
    same outcome, the same returned value, the same [fv] and [length], the
    same parser. *)
Theorem unlabelled_get_next_example_agrees
  (sched : list (@action T StreamingFile)) s (v : vector) (len : Z)
  (lbl label_dummy : float) :
  outcome_map forget_label
    (run (A_call (Call_get_next_example_unlabelled v len label_dummy) :: sched)
       s)
  = outcome_map forget_label
      (run (A_call (Call_get_next_example v len lbl) :: sched) s).
Proof.
  simpl. unfold step. destruct (terminated s); [reflexivity|].
  destruct (caller s); try reflexivity.
  simpl. apply run_forget_label. reflexivity.
Qed.

(** C9.  With the caller outside any method, [end_parser] on a handle that
    is not joinable returns at once and changes neither the parser nor the
    parse thread; the handle is not joinable when no thread was ever
    spawned, and after a join of an earlier [end_parser] or [exit_parser]
    has returned; on a joinable handle [end_parser] goes to the join. *)
Theorem end_parser_without_thread_is_noop
  garbage input_file is_labelled size h s :
  exec (boot garbage input_file is_labelled size) h s ->
  caller s = C_idle -> terminated s = false ->
  (parse_thread (parser s) = false ->
   exists s',
     step (A_call Call_end_parser) s = Ok s'
     /\ parser s' = parser s /\ worker s' = worker s
     /\ caller s' = C_idle /\ returned s' = Some VVoid)
  /\ (~ In EvSpawn (trace (parser s)) -> parse_thread (parser s) = false)
  /\ (parse_thread (parser s) = true ->
      step (A_call Call_end_parser) s = Ok (set_caller C_join s))
  /\ (forall u u1,
        caller u = C_join -> step A_caller u = Ok u1 ->
        parse_thread (parser u1) = false
        /\ exists u2,
             step (A_call Call_end_parser) u1 = Ok u2
             /\ parser u2 = parser u1 /\ worker u2 = worker u1
             /\ caller u2 = C_idle /\ returned u2 = Some VVoid).
Proof.
  intros Hx Hc Ht. split; [|split; [|split]].
  - intros Hj. unfold step, do_call, end_parser. rewrite Ht, Hc, Hj.
    eexists. split; [reflexivity|]. simpl. auto.
  - intros Hn. destruct (parse_thread (parser s)) eqn:Hj; [|reflexivity].
    exfalso. apply Hn. eapply exec_spawned; eassumption.
  - intros Hj. unfold step, do_call, end_parser. rewrite Ht, Hc, Hj.
    reflexivity.
  - intros u u1 Hu Hs. clear - Hu Hs.
    unfold step, caller_step in Hs. rewrite Hu in Hs. unfold join in Hs.
    destruct (terminated u) eqn:Eu; [discriminate|].
    destruct (worker u) as [[]|]; try discriminate.
    inversion Hs; subst; clear Hs. simpl. split; [reflexivity|].
    unfold step, do_call, end_parser. simpl. rewrite Eu.
    eexists. split; [reflexivity|]. simpl. auto.
Qed.

(** C10.  [init] leaves [free_after_release] true whatever an earlier
    [set_free_vector_after_release] chose, and a
    [set_free_vector_after_release] after [init] leaves its argument. *)
Theorem init_resets_free_after_release p (free_vec : bool) input_file
  (is_labelled : bool) (size : Z) :
  (exists p1 p2,
     set_free_vector_after_release free_vec p = Ok (tt, p1)
     /\ init input_file is_labelled size p1 = Ok (tt, p2)
     /\ free_after_release p2 = true)
  /\ (exists p1 p2,
        init input_file is_labelled size p = Ok (tt, p1)
        /\ set_free_vector_after_release free_vec p1 = Ok (tt, p2)
        /\ free_after_release p2 = free_vec).
Proof.
  split; eexists; eexists; (split; [reflexivity|split; reflexivity]).
Qed.

(** ** Further properties *)

Ltac known_pcs s :=
  repeat match goal with
  | E : worker s = _ |- _ => rewrite E in *; revert E
  | E : caller s = _ |- _ => rewrite E in *; revert E
  end; intros.

Lemma step_lock_discipline a s s' :
  step a s = Ok s' -> lock_discipline s -> lock_discipline s'.
Proof.
  unfold lock_discipline.
  intros H (Hl & Hx & Hj).
  destruct a as [| |c]; [| |destruct c]; crunch H; finish; known_pcs s;
    simpl in *.
  all: try (destruct (caller s); simpl in *; repeat split; congruence).
  all: try (destruct (worker s) as [[]|]; simpl in *; repeat split; congruence).
Qed.

Lemma step_flags_ok a s s' :
  step a s = Ok s' -> flags_ok s -> flags_ok s'.
Proof.
  intros H Hinv.
  destruct a as [| |c]; [| |destruct c]; crunch H; finish.
  all: destruct Hinv as (Hp & Hr); unfold flags_ok, drained in *;
       simpl in *.
  all: repeat match goal with
       | E : andb _ _ = true |- _ => apply andb_true_iff in E as [? ?]
       | E : Z.eqb _ _ = true |- _ => apply Z.eqb_eq in E
       | E : worker _ = _ |- _ => rewrite E in Hp; simpl in Hp
       end.
  all: try solve [intuition (try congruence; try lia)].
  all: split; [intros Hpd; try congruence; auto|intros Hrd].
  all: try solve [intuition (try congruence; try lia)].
  all: destruct (Hr Hrd) as [Ha Hb];
       rewrite ?Ha, ?Hb, ?Z.eqb_refl in *; simpl in *; try discriminate.
Qed.

Lemma step_ring_calls_counted a s s' :
  step a s = Ok s' -> lock_discipline s ->
  ring_calls_counted s -> ring_calls_counted s'.
Proof.
  intros H Hl Hinv.
  destruct a as [| |c]; [| |destruct c]; crunch H; finish.
  all: destruct Hl as (_ & _ & Hj), Hinv as (Hf & Hc);
       unfold ring_calls_counted, fetches, copies in *; simpl in *.
  all: repeat match goal with
       | E : worker _ = _ |- _ => rewrite E in Hc; simpl in Hc
       end.
  all: try (split; lia).
  all: try (destruct (worker s) as [[]|]; simpl in *; try congruence;
            split; lia).
Qed.


Lemma boot_lock_discipline garbage input_file is_labelled size :
  lock_discipline (boot garbage input_file is_labelled size).
Proof. repeat split. Qed.

Lemma boot_flags_ok garbage input_file is_labelled size :
  flags_ok (boot garbage input_file is_labelled size).
Proof. split; simpl; discriminate. Qed.

Lemma boot_ring_calls_counted garbage input_file is_labelled size :
  ring_calls_counted (boot garbage input_file is_labelled size).
Proof. split; reflexivity. Qed.

Lemma exec_lock_discipline s0 h s :
  lock_discipline s0 -> exec s0 h s -> lock_discipline s.
Proof.
  intros H0 Hx. induction Hx as [|h s a s' _ IH Hs]; [assumption|].
  eapply step_lock_discipline; eassumption.
Qed.

Lemma exec_flags_ok s0 h s :
  flags_ok s0 -> exec s0 h s -> flags_ok s.
Proof.
  intros H0 Hx. induction Hx as [|h s a s' _ IH Hs]; [assumption|].
  eapply step_flags_ok; eassumption.
Qed.

Lemma exec_ring_calls_counted s0 h s :
  lock_discipline s0 -> ring_calls_counted s0 -> exec s0 h s ->
  ring_calls_counted s.
Proof.
  intros Hl H0 Hx. induction Hx as [|h s a s' Hx IH Hs]; [assumption|].
  eapply step_ring_calls_counted; [eassumption| |assumption].
  eapply exec_lock_discipline; eassumption.
Qed.

Lemma step_parsing_done_final a s s' :
  step a s = Ok s' -> flags_ok s -> parsing_done (parser s) = true ->
  parsing_done (parser s') = true
  /\ number_of_vectors_parsed (parser s')
     = number_of_vectors_parsed (parser s).
Proof.
  intros H Hinv Hpd. destruct Hinv as [Hp _]. specialize (Hp Hpd).
  destruct a as [| |c]; [| |destruct c]; crunch H; finish;
    try discriminate; auto.
Qed.

Lemma exec_parsing_done_final s h2 s2 :
  flags_ok s -> parsing_done (parser s) = true -> exec s h2 s2 ->
  parsing_done (parser s2) = true
  /\ number_of_vectors_parsed (parser s2)
     = number_of_vectors_parsed (parser s).
Proof.
  intros Hf Hpd Hx. induction Hx as [|h2 u a u' Hx [IH1 IH2] Hs]; [auto|].
  destruct (step_parsing_done_final a u u' Hs) as [H1 H2]; auto.
  - eapply exec_flags_ok; eassumption.
  - split; congruence.
Qed.

(** X1.  In every state of a run the parse thread owns
    [examples_state_lock] exactly at its three program points between a
    lock and the unlock that follows, the caller exactly at its call of
    [retrieve_example], and [parse_thread] is joinable exactly while a
    thread stands behind it.  So the source is read and the ring is entered
    by the parse thread with the mutex released, and no method returns
    holding it. *)
Theorem mutex_owner_by_program_point garbage input_file is_labelled size h s :
  exec (boot garbage input_file is_labelled size) h s ->
  (examples_state_lock (parser s) = Some ParseThread
   <-> worker_in_critical (worker s) = true)
  /\ (examples_state_lock (parser s) = Some Caller
      <-> caller_in_critical (caller s) = true)
  /\ (parse_thread (parser s) = true <-> worker s <> None).
Proof.
  intros Hx.
  destruct (exec_lock_discipline _ _ _
              (boot_lock_discipline garbage input_file is_labelled size) Hx)
    as (Hl & Hm & Hj).
  rewrite Hl, Hj.
  destruct (worker_in_critical (worker s)), (caller_in_critical (caller s)),
    (worker s); simpl in *; try discriminate;
    repeat split; intros; congruence.
Qed.

(** X2.  Once [parsing_done] is set in a run it stays set and
    [number_of_vectors_parsed] no longer changes, whatever the two threads
    do afterwards. *)
Theorem parsing_done_is_final garbage input_file is_labelled size h s h2 s2 :
  exec (boot garbage input_file is_labelled size) h s ->
  parsing_done (parser s) = true ->
  exec s h2 s2 ->
  parsing_done (parser s2) = true
  /\ number_of_vectors_parsed (parser s2)
     = number_of_vectors_parsed (parser s).
Proof.
  intros Hx Hpd Hx2.
  eapply exec_parsing_done_final; [|assumption|eassumption].
  eapply exec_flags_ok; [|eassumption]. apply boot_flags_ok.
Qed.



(** X4.  In every state of a run [number_of_vectors_read] is the number of
    [get_unused_example] calls made, and the number of [copy_example] calls
    made is [number_of_vectors_parsed], plus one while the parse thread is
    between its [copy_example] and its increment; so the ring was never
    asked for more examples than were published. *)
Theorem counters_count_ring_calls garbage input_file is_labelled size h s :
  exec (boot garbage input_file is_labelled size) h s ->
  Z.of_nat (fetches s) = number_of_vectors_read (parser s)
  /\ Z.of_nat (copies s)
     = number_of_vectors_parsed (parser s) + uncounted (worker s)
  /\ (fetches s <= copies s)%nat.
Proof.
  intros Hx.
  destruct (exec_ring_calls_counted _ _ _
              (boot_lock_discipline garbage input_file is_labelled size)
              (boot_ring_calls_counted garbage input_file is_labelled size)
              Hx) as [Hf Hc].
  destruct (exec_counters_ok _ _ _
              (boot_counters_ok garbage input_file is_labelled size) Hx)
    as (_ & Hle & _).
  repeat split; try assumption.
  assert (0 <= uncounted (worker s)) by (destruct (worker s) as [[]|]; simpl; lia).
  lia.
Qed.

(** X5.  No step of the parse thread changes [reading_done],
    [number_of_vectors_read], [keep_running], [free_after_release], the
    thread handle, the configuration of the parser, or anything of the
    caller (its program point, [ex], its out parameters, its last returned
    value). *)
Theorem parse_thread_frame s s' :
  step A_worker s = Ok s' ->
  reading_done (parser s') = reading_done (parser s)
  /\ number_of_vectors_read (parser s') = number_of_vectors_read (parser s)
  /\ keep_running (parser s') = keep_running (parser s)
  /\ free_after_release (parser s') = free_after_release (parser s)
  /\ parse_thread (parser s') = parse_thread (parser s)
  /\ example_type (parser s') = example_type (parser s)
  /\ ring_size (parser s') = ring_size (parser s)
  /\ read_vector (parser s') = read_vector (parser s)
  /\ read_vector_and_label (parser s') = read_vector_and_label (parser s)
  /\ caller s' = caller s /\ ex s' = ex s /\ returned s' = returned s
  /\ arg_fv s' = arg_fv s /\ arg_length s' = arg_length s
  /\ arg_label s' = arg_label s.
Proof.
  intros H. crunch H; finish; auto 20.
Qed.

(** X6.  No step of the caller, in a method or entering one, changes
    [parsing_done], [number_of_vectors_parsed], the source, or the
    [current_*] members the parse thread works in. *)
Theorem caller_frame a s s' :
  a <> A_worker -> step a s = Ok s' ->
  parsing_done (parser s') = parsing_done (parser s)
  /\ number_of_vectors_parsed (parser s')
     = number_of_vectors_parsed (parser s)
  /\ input_source (parser s') = input_source (parser s)
  /\ current_example (parser s') = current_example (parser s)
  /\ current_feature_vector (parser s') = current_feature_vector (parser s)
  /\ current_len (parser s') = current_len (parser s)
  /\ current_label (parser s') = current_label (parser s).
Proof.
  intros Ha H.
  destruct a as [| |c]; [congruence| |destruct c]; crunch H; finish; auto 10.
Qed.

(** X7.  With the caller outside any method and the mutex free,
    [start_parser] raises its error when parsing is done and reading is not,
    spawning nothing and leaving thread, flags and ring as they were; in
    every other state of the two flags, on a handle that is not joinable,
    it sets [keep_running], spawns the parse thread at the head of its loop
    and returns. *)
Theorem start_parser_guard s :
  caller s = C_idle -> terminated s = false ->
  examples_state_lock (parser s) = None ->
  (parsing_done (parser s) = true -> reading_done (parser s) = false ->
   exists s',
     step (A_call Call_start_parser) s = Ok s'
     /\ returned s' = Some VError /\ caller s' = C_idle
     /\ trace (parser s') = EvError :: trace (parser s)
     /\ worker s' = worker s /\ terminated s' = false
     /\ keep_running (parser s') = keep_running (parser s)
     /\ parse_thread (parser s') = parse_thread (parser s)
     /\ examples_ring (parser s') = examples_ring (parser s))
  /\ (parsing_done (parser s) = false \/ reading_done (parser s) = true ->
      parse_thread (parser s) = false ->
      exists s',
        step (A_call Call_start_parser) s = Ok s'
        /\ returned s' = Some VVoid /\ caller s' = C_idle
        /\ trace (parser s') = EvSpawn :: trace (parser s)
        /\ worker s' = Some W_loop /\ terminated s' = false
        /\ keep_running (parser s') = true
        /\ parse_thread (parser s') = true
        /\ examples_ring (parser s')
           = option_map init_vector (examples_ring (parser s))).
Proof.
  intros Hc Ht Hl.
  unfold step, do_call, start_parser, on_parser, is_running, bind, lock, get,
    unlock, modify, ret.
  rewrite Ht, Hc, Hl. simpl. split.
  - intros -> ->. simpl. eexists. split; [reflexivity|]. simpl. auto 10.
  - intros Hd Hj.
    assert (E : (if parsing_done (parser s)
                 then if reading_done (parser s) then false else true
                 else false) = false).
    { destruct Hd as [-> | ->]; [reflexivity|].
      destruct (parsing_done (parser s)); reflexivity. }
    rewrite E. simpl. rewrite Hj.
    eexists. split; [reflexivity|]. simpl. auto 10.
Qed.

(** X8.  A parse thread at the head of its loop with [keep_running] clear
    or [parsing_done] set returns from [main_parse_loop] within three of
    its steps, with the parser as it was: nothing is read from the source
    and the ring is not entered. *)
Theorem idle_parse_thread_returns s :
  terminated s = false -> worker s = Some W_loop ->
  examples_state_lock (parser s) = None ->
  keep_running (parser s) = false \/ parsing_done (parser s) = true ->
  exists k s',
    (k <= 3)%nat
    /\ run (repeat A_worker k) s = Ok s'
    /\ worker s' = Some W_done /\ parser s' = parser s
    /\ caller s' = caller s /\ returned s' = returned s.
Proof.
  intros Ht Hw Hl Hd.
  destruct (keep_running (parser s)) eqn:Hk.
  - destruct Hd as [Hd|Hd]; [discriminate|].
    exists 3%nat. simpl.
    unfold step, on_parser, worker_step, bind, get, ret, lock, unlock, modify.
    rewrite Ht, Hw, Hk. simpl. rewrite Ht, Hl. simpl. rewrite Ht, Hd. simpl.
    eexists. split; [lia|]. split; [reflexivity|]. simpl.
    repeat split. destruct (parser s); simpl in *; subst. reflexivity.
  - exists 1%nat. simpl.
    unfold step, on_parser, worker_step, bind, get, ret.
    rewrite Ht, Hw, Hk. simpl.
    eexists. split; [lia|]. split; [reflexivity|]. simpl. auto.
Qed.

(** X9.  [exit_parser] on a parser whose thread stands at the head of its
    loop completes in three steps: the flag is cleared and the condition
    variable signalled, the thread reads the flag and returns, the join
    returns; the handle is then not joinable and flags, counters, ring and
    source are as before. *)
Theorem abort_at_loop_head_joins s :
  caller s = C_idle -> terminated s = false ->
  worker s = Some W_loop -> parse_thread (parser s) = true ->
  exists s',
    run [A_call Call_exit_parser; A_worker; A_caller] s = Ok s'
    /\ caller s' = C_idle /\ returned s' = Some VVoid
    /\ worker s' = None /\ parse_thread (parser s') = false
    /\ keep_running (parser s') = false
    /\ trace (parser s') = EvJoin :: EvNotify :: trace (parser s)
    /\ parsing_done (parser s') = parsing_done (parser s)
    /\ reading_done (parser s') = reading_done (parser s)
    /\ number_of_vectors_parsed (parser s')
       = number_of_vectors_parsed (parser s)
    /\ number_of_vectors_read (parser s') = number_of_vectors_read (parser s)
    /\ examples_ring (parser s') = examples_ring (parser s)
    /\ input_source (parser s') = input_source (parser s)
    /\ examples_state_lock (parser s') = examples_state_lock (parser s).
Proof.
  intros Hc Ht Hw Hj.
  destruct s as [p w c e av al alb r t]. simpl in Hc, Ht, Hw, Hj. subst.
  destruct p. simpl in Hj. subst.
  eexists. split; [reflexivity|]. simpl. auto 20.
Qed.

End Facts.

(** ** The claims on the concrete source *)

Lemma state_after_reached (input : list_source) (size : Z)
  (sched : list (@action Z list_source)) :
  then_run (started input size) sched = Ok (state_after input size sched) ->
  exists h, exec (boot raw_memory input true size) h
              (state_after input size sched).
Proof.
  unfold then_run, started. intros H.
  destruct (run (configure ++ [A_call Call_start_parser])
              (boot raw_memory input true size)) as [s1| |] eqn:H1;
    try discriminate.
  destruct (exec_run_from _ _ _ _ _ (exec_nil _) H1) as [h1 Hx1].
  exact (exec_run_from _ _ _ _ _ Hx1 H).
Qed.

Lemma retrieve_example_contract_witness :
  exists h s,
    exec (boot raw_memory malformed_input true 3) h s
    /\ caller s = N_retrieve
    /\ exists rb,
         examples_ring (parser s) = Some rb
         /\ retrieve_example (parser s)
            = match get_unused_example rb with
              | Ok (i, rb') =>
                  Ok (Some i,
                      upd_number_of_vectors_read
                        (number_of_vectors_read (parser s) + 1)
                        (upd_trace (EvGetUnused i :: trace (parser s))
                           (upd_examples_ring (Some rb') (parser s))))
              | Blocked => Blocked
              | Undefined => Undefined
              end.
Proof.
  destruct (state_after_reached malformed_input 3 at_retrieve) as [h Hx];
    [vm_compute; reflexivity|].
  exists h, (state_after malformed_input 3 at_retrieve).
  split; [exact Hx|]. split; [vm_compute; reflexivity|].
  apply (retrieve_example_contract raw_memory malformed_input true 3 h _ Hx).
  - intros [H _]. vm_compute in H. discriminate H.
  - vm_compute. discriminate.
  - vm_compute. discriminate.
Defined.

Lemma end_of_stream_iteration_witness :
  exists s s1 u1 v1 : @System Z list_source,
    worker s = Some W_read
    /\ step A_worker s = Ok s1 /\ current_len (parser s1) < 0
    /\ step A_worker s1 = Ok u1 /\ step A_worker u1 = Ok v1
    /\ worker v1 = Some W_done /\ parsing_done (parser v1) = true
    /\ copies v1 = copies s
    /\ number_of_vectors_parsed (parser v1)
       = number_of_vectors_parsed (parser s).
Proof.
  pose (s := state_after [] 3 before_read).
  pose (s1 := state_after [] 3 (before_read ++ [A_worker])).
  pose (u1 := state_after [] 3 (before_read ++ [A_worker; A_worker])).
  assert (Hs : worker s = Some W_read) by (vm_compute; reflexivity).
  assert (H1 : step A_worker s = Ok s1) by (vm_compute; reflexivity).
  assert (Hl : current_len (parser s1) < 0) by (vm_compute; reflexivity).
  assert (Hu : worker s1 = Some W_lock_eof) by (vm_compute; reflexivity).
  assert (H2 : step A_worker s1 = Ok u1) by (vm_compute; reflexivity).
  assert (Hv : worker u1 = Some W_eof) by (vm_compute; reflexivity).
  assert (Ht : terminated u1 = false) by (vm_compute; reflexivity).
  destruct (end_of_stream_iteration s s1 s1 u1 u1 Hs H1 Hl Hu H2 Hv Ht)
    as (_ & _ & v1 & H3 & Hw & Hp & Htr & _ & _ & Hn).
  exists s, s1, u1, v1.
  repeat (split; [assumption|]). split.
  - unfold copies. rewrite Htr. vm_compute. reflexivity.
  - rewrite Hn. vm_compute. reflexivity.
Defined.

(** C7.  On the stream of one good example followed by a record of length
    0, a run reaches a state in which [number_of_vectors_parsed] is 2 while
    the source has produced one example: the parsed counter exceeds
    [N_source].  (The read counter is 1 there, within the parsed counter.) *)
Theorem parsed_exceeds_examples_produced :
  exists h s,
    exec (boot raw_memory malformed_input true 3) h s
    /\ number_of_vectors_read (parser s) = 1
    /\ number_of_vectors_parsed (parser s) = 2
    /\ N_source s = 1
    /\ ~ number_of_vectors_parsed (parser s) <= N_source s.
Proof.
  destruct (state_after_reached malformed_input 3 one_fetched) as [h Hx];
    [vm_compute; reflexivity|].
  exists h, (state_after malformed_input 3 one_fetched).
  split; [exact Hx|].
  repeat (split; [vm_compute; reflexivity|]).
  vm_compute. intros H. apply H. reflexivity.
Qed.

Lemma end_parser_without_thread_is_noop_witness :
  exists s',
    step (A_call Call_end_parser) (boot raw_memory malformed_input true 3)
    = Ok s'
    /\ parser s' = parser (boot raw_memory malformed_input true 3)
    /\ worker s' = None
    /\ caller s' = C_idle /\ returned s' = Some VVoid.
Proof.
  destruct (end_parser_without_thread_is_noop raw_memory malformed_input true
              3 [] _ (exec_nil _) eq_refl eq_refl) as (H & _).
  exact (H eq_refl).
Defined.

(** C2.  On a parser whose thread has just been started and has parsed
    nothing, [parsing_done] is false and [is_running()] returns false. *)
Theorem is_running_false_while_parsing :
  outcome_map
    (fun s => (parsing_done (parser s), worker s, returned s))
    (then_run (started malformed_input 3) [A_call Call_is_running])
  = Ok (false, Some W_loop, Some (VBool false)).
Proof. vm_compute. reflexivity. Qed.

(** C3.  On the stream of one good example followed by a record of length
    0, the parse thread publishes both records: after its second iteration
    two [copy_example] calls have been made, [number_of_vectors_parsed] is 2
    and [parsing_done] is still false; and the second [get_next_example]
    returns 1 and hands out length 0. *)
Theorem zero_length_record_is_published :
  outcome_map
    (fun s => (parsing_done (parser s), number_of_vectors_parsed (parser s),
               copies s, worker s))
    (then_run (started malformed_input 3)
       (publish_iteration ++ publish_iteration))
  = Ok (false, 2, 2%nat, Some W_loop)
  /\ outcome_map (fun s => (returned s, arg_fv s, arg_length s))
       (then_run (started malformed_input 3)
          (publish_iteration ++ publish_iteration
           ++ next_example ++ finalize ++ next_example))
     = Ok (Some (VInt 1), Some [], 0).
Proof. split; vm_compute; reflexivity. Qed.

(** C4.  A second [start_parser()] on a parser whose thread is live and
    still parsing raises no error: a second thread is spawned and the
    assignment to the joinable [parse_thread] terminates the program. *)
Theorem second_start_spawns_and_terminates :
  outcome_map
    (fun s => (parsing_done (parser s), worker s, trace (parser s),
               terminated s))
    (then_run (started malformed_input 3) [A_call Call_start_parser])
  = Ok (false, Some W_loop, [EvSpawn; EvSpawn], true).
Proof. vm_compute. reflexivity. Qed.

(** C5.  After [exit_parser()] has cleared [keep_running], a call of
    [get_next_example] leaves its loop at the first test with [ex] never
    assigned, and what follows, the reads through [ex] before [return 1],
    has no defined behaviour: the call does not return 0. *)
Theorem next_after_abort_never_returns_zero :
  outcome_map
    (fun s => (keep_running (parser s), caller s, ex s))
    (then_run (started malformed_input 3) abort_then_next)
  = Ok (false, N_after, None)
  /\ then_run (started malformed_input 3) (abort_then_next ++ [A_caller])
     = Undefined.
Proof. split; vm_compute; reflexivity. Qed.

(** ** Sessions *)

Lemma empty_slot_at (sl : list (@Example Z * slot_state)) (k : nat) :
  (0 < List.length sl)%nat ->
  Forall (fun x : Example * slot_state => snd x = EMPTY) sl ->
  exists e, sl !! (k mod List.length sl)%nat = Some (e, EMPTY).
Proof.
  intros Hn Ha.
  assert (Hi : (k mod List.length sl < List.length sl)%nat)
    by (apply Nat.mod_upper_bound; lia).
  destruct (lookup_lt_is_Some_2 sl _ Hi) as [[e st] He].
  exists e. rewrite He.
  rewrite Forall_forall in Ha.
  specialize (Ha (e, st)). simpl in Ha. rewrite Ha; [reflexivity|].
  eapply list_elem_of_lookup_2. exact He.
Qed.

Lemma run_cons_ok {T StreamingFile : Type} (a : @action T StreamingFile)
  rest s s' r :
  step a s = Ok s' -> run rest s' = r -> run (a :: rest) s = r.
Proof. intros H1 H2. simpl. rewrite H1. exact H2. Qed.

(** Unfolds the model, and nothing of lists or arithmetic. *)
Ltac model_cbv :=
  cbv beta iota zeta delta [
    parsing_done reading_done example_type read_vector
    read_vector_and_label input_source parse_thread examples_ring
    number_of_vectors_parsed number_of_vectors_read current_example
    current_feature_vector current_label current_len free_after_release
    ring_size examples_state_lock keep_running trace upd_parsing_done
    upd_reading_done upd_example_type upd_read_vector
    upd_read_vector_and_label upd_input_source upd_parse_thread
    upd_examples_ring upd_number_of_vectors_parsed
    upd_number_of_vectors_read upd_current_example
    upd_current_feature_vector upd_current_label upd_current_len
    upd_free_after_release upd_ring_size upd_examples_state_lock
    upd_keep_running upd_trace parser worker caller ex arg_fv arg_length
    arg_label returned terminated set_parser set_worker set_caller set_ex
    set_args set_terminated return_ on_parser slots write_idx read_idx
    free_vectors_on_destruct capacity fv length label step worker_step
    caller_step do_call start_parser end_parser exit_parser join
    enter_get_next_example bind ret get modify undefined block emit lock
    unlock notify_one incr32 ring_call ring_exec ring_load
    the_current_example is_running retrieve_example finalize_example
    copy_example_into_buffer get_vector_and_label get_vector_only
    set_read_vector set_read_vector_and_label set_free_vector_after_release
    set_free_vectors_on_destruct get_free_example copy_example
    get_unused_example ring_finalize_example store_example load_example
    init_vector ring_set_free_vectors_on_destruct thread_eqb read_labelled
    read_unlabelled fst snd option_map delivered as_delivered andb negb orb
  ].

Ltac sym_step rw :=
  eapply run_cons_ok;
  [ repeat (progress (model_cbv; rw)); reflexivity | ].

Lemma round_ok et c k x n l rest s :
  between_rounds et c k ((x, n, l) :: rest) s ->
  0 <= n -> 0 <= c < INT32_MAX ->
  exists s1 s2,
    run (publish_iteration ++ next_example) s = Ok s1
    /\ without_label (delivered s1) = without_label (as_delivered (x, n, l))
    /\ (et = E_LABELLED -> delivered s1 = as_delivered (x, n, l))
    /\ run finalize s1 = Ok s2
    /\ between_rounds et (c + 1) (S k) rest s2.
Proof.
  intros (ce & cfv & clab & clen & far & rs & tr & sl & fd & e & av & al
          & alb & r & -> & Hn & Ha) Hlen Hc.
  destruct (empty_slot_at sl k Hn Ha) as [e0 He0].
  assert (Hi : (k mod List.length sl < List.length sl)%nat)
    by (apply Nat.mod_upper_bound; lia).
  remember (k mod List.length sl)%nat as i eqn:Ei.
  assert (H1 : (n <? 0) = false) by (apply Z.ltb_ge; lia).
  assert (H2 : (c <? INT32_MAX) = true) by (apply Z.ltb_lt; lia).
  assert (H3 : (c + 1 <=? 0) = false) by (apply Z.leb_gt; lia).
  assert (H4 : (c =? c + 1) = false) by (apply Z.eqb_neq; lia).
  destruct (n <? 1) eqn:H5; destruct et.
  all: unfold publish_iteration, next_example, finalize.
  all: change (repeat A_worker 8
               ++ A_call (Call_get_next_example None 0 0%float)
               :: repeat A_caller 5)
    with ([A_worker; A_worker; A_worker; A_worker; A_worker; A_worker;
           A_worker; A_worker; A_call (Call_get_next_example None 0 0%float);
           A_caller; A_caller; A_caller; A_caller; A_caller]
          : list (@action Z list_source)).
  all: eexists; eexists; split;
    [ do 14 (sym_step ltac:(rewrite ?length_insert, <- ?Ei, ?He0, ?H1, ?H2,
                              ?H3, ?H4, ?H5, ?list_insert_insert_eq,
                              ?list_lookup_insert_eq by exact Hi));
      reflexivity | ].
  all: split; [reflexivity|].
  all: split; [try reflexivity; discriminate|].
  all: split;
    [ sym_step ltac:(rewrite ?length_insert, <- ?Ei,
                       ?list_insert_insert_eq,
                       ?list_lookup_insert_eq by exact Hi);
      reflexivity | ].
  all: unfold between_rounds; do 14 eexists.
  all: split; [reflexivity|].
  all: rewrite length_insert; split; [exact Hn|].
  all: apply Forall_insert; [exact Ha|reflexivity].
Qed.

Lemma consume_round n s s1 s2 l s3 :
  run (publish_iteration ++ next_example) s = Ok s1 ->
  run finalize s1 = Ok s2 -> consume n s2 = Ok (l, s3) ->
  consume (S n) s = Ok (delivered s1 :: l, s3).
Proof.
  intros H1 H2 H3. change (consume (S n) s)
    with (match run (publish_iteration ++ next_example) s with
          | Ok s1 =>
              match run finalize s1 with
              | Ok s2 =>
                  match consume n s2 with
                  | Ok (l, s3) => Ok (delivered s1 :: l, s3)
                  | Blocked => Blocked
                  | Undefined => Undefined
                  end
              | Blocked => Blocked
              | Undefined => Undefined
              end
          | Blocked => Blocked
          | Undefined => Undefined
          end).
  rewrite H1, H2, H3. reflexivity.
Qed.

Lemma consume_ok et rest : forall c k s,
  between_rounds et c k rest s ->
  Forall (fun r : record => 0 <= snd (fst r)) rest ->
  0 <= c -> c + Z.of_nat (List.length rest) < INT32_MAX ->
  exists ds s',
    consume (List.length rest) s = Ok (ds, s')
    /\ map without_label ds = map without_label (map as_delivered rest)
    /\ (et = E_LABELLED -> ds = map as_delivered rest)
    /\ between_rounds et (c + Z.of_nat (List.length rest))
         (k + List.length rest) [] s'.
Proof.
  induction rest as [|[[x n] l] rest IH]; intros c k s Hb Hf Hc Hlt.
  - exists [], s. simpl. repeat (split; [reflexivity|]).
    replace (c + Z.of_nat 0) with c by lia.
    replace (k + 0)%nat with k by lia.
    exact Hb.
  - apply Forall_cons in Hf as [Hn Hf]. simpl in Hn.
    change (List.length ((x, n, l) :: rest)) with (S (List.length rest))
      in *.
    destruct (round_ok et c k x n l rest s Hb Hn)
      as (s1 & s2 & H1 & Hd & Hdl & H2 & Hb'); [lia|].
    destruct (IH (c + 1) (S k) s2 Hb' Hf) as (ds & s' & Hs' & Hm & Hml & Hb'');
      [lia|lia|].
    exists (delivered s1 :: ds), s'. split; [|split; [|split]].
    + apply (consume_round _ _ _ _ _ _ H1 H2 Hs').
    + change (map without_label (delivered s1 :: ds))
        with (without_label (delivered s1) :: map without_label ds).
      rewrite Hd, Hm. reflexivity.
    + intros He. rewrite (Hdl He), (Hml He). reflexivity.
    + replace (c + Z.of_nat (S (List.length rest)))
        with (c + 1 + Z.of_nat (List.length rest)) by lia.
      replace (k + S (List.length rest))%nat
        with (S k + List.length rest)%nat by lia.
      exact Hb''.
Qed.

Lemma drain_ok et c k s :
  between_rounds et c k [] s ->
  exists s',
    run drain s = Ok s'
    /\ delivered s' = (Some (VInt 0), None, 0, 0%float)
    /\ parsing_done (parser s') = true /\ reading_done (parser s') = true
    /\ number_of_vectors_parsed (parser s') = c
    /\ number_of_vectors_read (parser s') = c
    /\ worker s' = Some W_done.
Proof.
  intros (ce & cfv & clab & clen & far & rs & tr & sl & fd & e & av & al
          & alb & r & -> & Hn & Ha).
  destruct (empty_slot_at sl k Hn Ha) as [e0 He0].
  assert (Hi : (k mod List.length sl < List.length sl)%nat)
    by (apply Nat.mod_upper_bound; lia).
  remember (k mod List.length sl)%nat as i eqn:Ei.
  unfold drain.
  change (repeat A_worker 7
          ++ A_call (Call_get_next_example None 0 0%float)
          :: repeat A_caller 4)
    with ([A_worker; A_worker; A_worker; A_worker; A_worker; A_worker;
           A_worker; A_call (Call_get_next_example None 0 0%float);
           A_caller; A_caller; A_caller; A_caller]
          : list (@action Z list_source)).
  destruct et.
  all: eexists; split;
    [ do 12 (sym_step ltac:(rewrite ?length_insert, <- ?Ei, ?He0,
                              ?Z.eqb_refl, ?list_insert_insert_eq,
                              ?list_lookup_insert_eq by exact Hi));
      reflexivity | ].
  all: cbv [delivered returned arg_fv arg_length arg_label parser worker
            parsing_done reading_done number_of_vectors_parsed
            number_of_vectors_read]; auto 10.
Qed.

Lemma start_ok (garbage : @InputParser Z list_source) input is_labelled size :
  1 <= size ->
  exists s0,
    run (configure ++ [A_call Call_start_parser])
      (boot garbage input is_labelled size) = Ok s0
    /\ between_rounds (if is_labelled then E_LABELLED else E_UNLABELLED)
         0 0 input s0.
Proof.
  intros Hs. unfold configure.
  change ([A_call (Call_set_read_vector_and_label read_labelled);
           A_call (Call_set_read_vector read_unlabelled)]
          ++ [A_call Call_start_parser])
    with ([A_call (Call_set_read_vector_and_label read_labelled);
           A_call (Call_set_read_vector read_unlabelled);
           A_call Call_start_parser] : list (@action Z list_source)).
  eexists. split.
  { unfold boot, initialised, init, InputParser_new.
    do 3 (sym_step idtac). reflexivity. }
  unfold between_rounds. do 14 eexists. split; [reflexivity|].
  unfold ParseBuffer_new. cbv [slots].
  split.
  - rewrite length_replicate. lia.
  - apply Forall_replicate. reflexivity.
Qed.

(** X10.  For every stream of records of non-negative length, labelled or
    not, and every ring of at least one slot, the session in which the
    parse thread and the caller strictly alternate (one publishing
    iteration, one [get_next_example], one [finalize_example]) runs through:
    every [get_next_example] returns 1 and hands out the vector and length
    of the records in the order of the source, with their labels when the
    parser is labelled, and the [get_next_example] after the end of the
    stream returns 0 and leaves its out parameters alone. *)
Theorem alternating_session_delivers_in_order
  (garbage : @InputParser Z list_source) (input : list_source)
  (is_labelled : bool) (size : Z) :
  1 <= size ->
  Forall (fun r : record => 0 <= snd (fst r)) input ->
  Z.of_nat (List.length input) < INT32_MAX ->
  exists ds,
    session garbage input is_labelled size
    = Ok (ds, (Some (VInt 0), None, 0, 0%float))
    /\ map without_label ds = map without_label (map as_delivered input)
    /\ (is_labelled = true -> ds = map as_delivered input).
Proof.
  intros Hs Hf Hl. unfold session.
  destruct (start_ok garbage input is_labelled size Hs) as (s0 & H0 & Hb0).
  rewrite H0.
  destruct (consume_ok _ input 0 0%nat s0 Hb0 Hf)
    as (ds & s1 & H1 & Hm & Hml & Hb1); [lia|lia|].
  rewrite H1.
  destruct (drain_ok _ _ _ s1 Hb1) as (s2 & H2 & Hd & _).
  rewrite H2, Hd. exists ds. split; [reflexivity|]. split; [exact Hm|].
  intros ->. apply Hml. reflexivity.
Qed.

(** ** The further properties on the concrete source *)

Lemma mutex_owner_by_program_point_witness :
  exists h s,
    exec (boot raw_memory malformed_input true 3) h s
    /\ worker s = Some W_check
    /\ examples_state_lock (parser s) = Some ParseThread.
Proof.
  destruct (state_after_reached malformed_input 3 [A_worker; A_worker])
    as [h Hx]; [vm_compute; reflexivity|].
  exists h, (state_after malformed_input 3 [A_worker; A_worker]).
  split; [exact Hx|]. split; [vm_compute; reflexivity|].
  apply (mutex_owner_by_program_point raw_memory malformed_input true 3 h _
           Hx).
  vm_compute. reflexivity.
Defined.

Lemma parsing_done_is_final_witness :
  exists h s h2 s2,
    exec (boot raw_memory [] true 3) h s
    /\ parsing_done (parser s) = true
    /\ exec s h2 s2 /\ h2 <> []
    /\ parsing_done (parser s2) = true
    /\ number_of_vectors_parsed (parser s2)
       = number_of_vectors_parsed (parser s).
Proof.
  destruct (state_after_reached [] 3 at_end_of_stream) as [h Hx];
    [vm_compute; reflexivity|].
  pose (s := state_after [] 3 at_end_of_stream).
  pose (s2 := state_after [] 3 (at_end_of_stream ++ [A_call Call_is_running])).
  assert (Hs : step (A_call Call_is_running) s = Ok s2)
    by (vm_compute; reflexivity).
  assert (Hp : parsing_done (parser s) = true) by (vm_compute; reflexivity).
  pose proof (exec_step s _ _ _ _ (exec_nil s) Hs) as Hx2.
  exists h, s, [(s, A_call Call_is_running)], s2.
  split; [exact Hx|]. split; [exact Hp|]. split; [exact Hx2|].
  split; [discriminate|].
  exact (parsing_done_is_final raw_memory [] true 3 h s _ s2 Hx Hp Hx2).
Defined.


Lemma counters_count_ring_calls_witness :
  exists h s,
    exec (boot raw_memory malformed_input true 3) h s
    /\ fetches s = 1%nat /\ copies s = 2%nat
    /\ Z.of_nat (fetches s) = number_of_vectors_read (parser s)
    /\ (fetches s <= copies s)%nat.
Proof.
  destruct (state_after_reached malformed_input 3 one_fetched) as [h Hx];
    [vm_compute; reflexivity|].
  exists h, (state_after malformed_input 3 one_fetched).
  split; [exact Hx|].
  do 2 (split; [vm_compute; reflexivity|]).
  destruct (counters_count_ring_calls raw_memory malformed_input true 3 h _
              Hx) as (H1 & _ & H3).
  split; assumption.
Defined.

Lemma parse_thread_frame_witness :
  exists s s' : @System Z list_source,
    step A_worker s = Ok s'
    /\ worker s = Some W_read /\ worker s' = Some W_publish
    /\ reading_done (parser s') = reading_done (parser s)
    /\ number_of_vectors_read (parser s') = number_of_vectors_read (parser s)
    /\ caller s' = caller s.
Proof.
  pose (s := state_after malformed_input 3 before_read).
  pose (s' := state_after malformed_input 3 (before_read ++ [A_worker])).
  assert (Hs : step A_worker s = Ok s') by (vm_compute; reflexivity).
  exists s, s'. split; [exact Hs|].
  split; [vm_compute; reflexivity|]. split; [vm_compute; reflexivity|].
  destruct (parse_thread_frame s s' Hs) as (H1 & H2 & _ & _ & _ & _ & _ & _
                                            & _ & H3 & _).
  auto.
Defined.

Lemma caller_frame_witness :
  exists s s' : @System Z list_source,
    step (A_call Call_finalize_example) s = Ok s'
    /\ parsing_done (parser s') = parsing_done (parser s)
    /\ number_of_vectors_parsed (parser s')
       = number_of_vectors_parsed (parser s)
    /\ current_len (parser s') = current_len (parser s).
Proof.
  pose (s := state_after malformed_input 3 one_fetched).
  pose (s' := state_after malformed_input 3 (one_fetched ++ finalize)).
  assert (Hs : step (A_call Call_finalize_example) s = Ok s')
    by (vm_compute; reflexivity).
  exists s, s'. split; [exact Hs|].
  destruct (caller_frame (A_call Call_finalize_example) s s'
              ltac:(discriminate) Hs)
    as (H1 & H2 & _ & _ & _ & H3 & _).
  auto.
Defined.

Lemma start_parser_guard_witness :
  exists s',
    step (A_call Call_start_parser) (state_after [] 3 at_end_of_stream)
    = Ok s'
    /\ returned s' = Some VError
    /\ worker s' = Some W_done.
Proof.
  destruct (start_parser_guard (state_after [] 3 at_end_of_stream)
              eq_refl eq_refl eq_refl) as [H _].
  destruct (H eq_refl eq_refl) as (s' & Hs & Hr & _ & _ & Hw & _).
  exists s'. split; [exact Hs|]. split; [exact Hr|].
  rewrite Hw. vm_compute. reflexivity.
Defined.

Lemma idle_parse_thread_returns_witness :
  exists s k s',
    started_without_init = Ok s
    /\ examples_ring (parser s) = None
    /\ (k <= 3)%nat
    /\ run (repeat A_worker k) s = Ok s'
    /\ worker s' = Some W_done /\ parser s' = parser s.
Proof.
  pose (s := match started_without_init with
             | Ok s => s
             | _ => boot raw_memory [] true 1
             end).
  destruct (idle_parse_thread_returns s eq_refl eq_refl eq_refl
              (or_intror eq_refl)) as (k & s' & Hk & Hr & Hw & Hp & _).
  exists s, k, s'. split; [vm_compute; reflexivity|].
  split; [vm_compute; reflexivity|]. auto.
Defined.

Lemma abort_at_loop_head_joins_witness :
  exists s s',
    started malformed_input 3 = Ok s
    /\ run [A_call Call_exit_parser; A_worker; A_caller] s = Ok s'
    /\ worker s' = None /\ keep_running (parser s') = false
    /\ parse_thread (parser s') = false.
Proof.
  pose (s := state_after malformed_input 3 []).
  destruct (abort_at_loop_head_joins s eq_refl eq_refl eq_refl eq_refl)
    as (s' & Hr & _ & _ & Hw & Hj & Hk & _).
  exists s, s'. split; [vm_compute; reflexivity|]. auto.
Defined.

Lemma alternating_session_delivers_in_order_witness :
  exists ds,
    session raw_memory malformed_input true 3
    = Ok (ds, (Some (VInt 0), None, 0, 0%float))
    /\ ds = [(Some (VInt 1), Some [1; 2], 2, 0%float);
             (Some (VInt 1), Some [], 0, 5%float)].
Proof.
  destruct (alternating_session_delivers_in_order raw_memory malformed_input
              true 3) as (ds & Hs & _ & Hl).
  - lia.
  - repeat constructor; simpl; lia.
  - vm_compute. reflexivity.
  - exists ds. split; [exact Hs|]. exact (Hl eq_refl).
Defined.
